(** * Session lifecycle manager and message pipeline of the DataLab server

    A shallow embedding of the two variants of the session manager found in
    the server sources:

    - [SessionManager]  (sessions/manager.ts), which opens the notebook of a
      session from storage, and
    - [MessagePipeline] (the older variant of the same file), which builds a
      blank notebook for every new session.

    Both classes own a registry from session ids to session objects, create or
    re-attach sessions on connection events, and pass every message through an
    ordered chain of message processors before handing it back to the session.

    JavaScript effects are written out: a method is a function from the world
    (the receiver object, the heap of session objects, the state of the
    external collaborators and the trace of observable calls) to a completion
    (normal or thrown) and a new world. *)

From Stdlib Require Import String List.
From stdpp Require Import base option list strings gmap fin_maps.

Local Open Scope string_scope.
Local Open Scope list_scope.

(** ** JavaScript values and completions *)

(** Messages are typed [any] in the source.  Only the distinction between
    [null] (the "filtered" sentinel) and everything else matters to the
    pipeline; strings and objects are kept so that processors can be written
    down concretely. *)
#[warnings="-register-all"] Inductive any : Type :=
  | VNull
  | VUndefined
  | VStr (s : string)
  | VObj (fields : list (string * any)).

(** [v === null] *)
Definition is_null (v : any) : bool :=
  match v with VNull => true | _ => false end.

Definition Error : Type := string.

(** A call either returns normally or throws. *)
Inductive completion (A : Type) : Type :=
  | Normal (a : A)
  | Throw (e : Error).
Arguments Normal {A} a.
Arguments Throw {A} e.

(** ** Plain objects used as maps

    The registry is created as the object literal [{}] and read with
    [object[key]]: a key the object does not hold itself is looked up in
    [Object.prototype], so that the names below are found (as a function or,
    for "__proto__", as the prototype object: truthy values that are no
    session) even in an empty registry. *)
Definition Object_prototype : list string :=
  ["constructor"; "toString"; "toLocaleString"; "valueOf"; "hasOwnProperty";
   "isPrototypeOf"; "propertyIsEnumerable"; "__defineGetter__"; "__defineSetter__";
   "__lookupGetter__"; "__lookupSetter__"; "__proto__"].

Definition inherited (key : string) : bool :=
  existsb (String.eqb key) Object_prototype.

(** What [object[key]] evaluates to. *)
Inductive property (A : Type) : Type :=
  | Own (a : A)      (* a value stored under [key] in the object itself *)
  | Inherited        (* a member of Object.prototype *)
  | Undefined.       (* undefined *)
Arguments Own {A} a.
Arguments Inherited {A}.
Arguments Undefined {A}.

Definition get_property {A} (object : gmap string A) (key : string) : property A :=
  match object !! key with
  | Some a => Own a
  | None => if inherited key then Inherited else Undefined
  end.

(** Object references (locations of session objects on the heap). *)
Definition loc : Type := positive.

(** A user connection; [getSessionId] is its session-key accessor. *)
Record IUserConnection : Type := {
  connectionId : nat;
  getSessionId : string
}.

(** ** Notebook data (as built by [_createBlankNotebook]) *)

Record Cell : Type := {
  cell_id : string;
  cell_type : string;
  cell_source : string;
  cell_active : option bool   (* the property is absent on code cells *)
}.

Record Notebook : Type := {
  notebook_id : string;
  cells : gmap string Cell;
  worksheet : list string
}.

Record KernelConfig : Type := {
  iopubPort : N;
  shellPort : N
}.

(** ** External collaborators

    The kernel manager, the port allocator, the storage-backed notebook
    class and the uuid generator live outside the session manager.  Each is an
    operation on an abstract external state [Ext]; every one except the uuid
    generator may throw. *)
Class Collaborators : Type := {
  Ext : Type;
  IKernel : Type;
  IActiveNotebook : Type;
  IStorage : Type;
  (* utils.getAvailablePort() *)
  getAvailablePort : Ext -> completion N * Ext;
  (* this._kernelManager.create(config) *)
  kernelManager_create : KernelConfig -> Ext -> completion IKernel * Ext;
  (* new notebooks.ActiveNotebook(path, storage) *)
  ActiveNotebook_open : string -> IStorage -> Ext -> completion IActiveNotebook * Ext;
  (* new notebooks.ActiveNotebook(notebook) *)
  ActiveNotebook_wrap : Notebook -> Ext -> completion IActiveNotebook * Ext;
  (* uuid.v4() *)
  uuid_v4 : Ext -> string * Ext
}.

(** A message processor maps a message and the session it belongs to either to
    a message, to [null], or throws.  It has no access to the manager. *)
Definition MessageProcessor : Type := any -> loc -> completion any.

(** The "next action" callback supplied by a session: delivery to the other
    side, an effect on the external world that may throw. *)
Definition EventHandler `{Collaborators} : Type := any -> Ext -> completion unit * Ext.

(** The forwarding callback stored in a session is always the manager's own
    bound method, [this._handleMessage.bind(this)]. *)
Inductive MessageHandler : Type :=
  | bound_handleMessage.

(** Observable calls made while a message is handled. *)
Inductive Event : Type :=
  | EvProcessor (i : nat) (arg : any) (session : loc)   (* this._messageProcessors[i](arg, session) *)
  | EvLog (message : any)                               (* console.log('Filtered: ', ...) *)
  | EvCallback (arg : any).                             (* callback(arg) *)

(** Events emitted by the user connection manager. *)
Inductive ConnectionEvent : Type :=
  | Connect (connection : IUserConnection)
  | Disconnect (connection : IUserConnection).

Section Runtime.
Context `{Collaborators}.

(** Modelled from the spec: the Session class (sessions/session.ts is not
    part of the sources at hand).  A Session owns its key, one kernel
    handle, one document reference, one replaceable current connection and
    the forwarding callback; it is ATTACHED while it has a connection and
    DETACHED when the connection reference is cleared. *)
Record Session : Type := {
  session_id : string;
  userconn : option IUserConnection;
  kernel : IKernel;
  notebook : IActiveNotebook;
  messageHandler : MessageHandler
}.

Inductive SessionState : Type := ATTACHED | DETACHED.

Definition session_state (s : Session) : SessionState :=
  match userconn s with Some _ => ATTACHED | None => DETACHED end.

(** Modelled from the spec: [new sessions.Session(id, connection, kernel,
    notebook, handler)] stores its five arguments. *)
Definition new_Session (id : string) (connection : IUserConnection)
    (k : IKernel) (n : IActiveNotebook) (h : MessageHandler) : Session :=
  {| session_id := id; userconn := Some connection; kernel := k;
     notebook := n; messageHandler := h |}.

(** Modelled from the spec: [session.updateUserConnection(connection)]
    replaces the current connection reference and nothing else. *)
Definition updateUserConnection (s : Session) (connection : IUserConnection) : Session :=
  {| session_id := session_id s; userconn := Some connection; kernel := kernel s;
     notebook := notebook s; messageHandler := messageHandler s |}.

(** The world a method of a manager of class [T] runs in. *)
Record World (T : Type) : Type := {
  this : T;
  heap : gmap loc Session;
  ext : Ext;
  trace : list Event
}.
Arguments this {T} _.
Arguments heap {T} _.
Arguments ext {T} _.
Arguments trace {T} _.

Definition M (T A : Type) : Type := World T -> completion A * World T.

Definition ret {T A} (a : A) : M T A := fun w => (Normal a, w).

Definition throw {T A} (e : Error) : M T A := fun w => (Throw e, w).

(** Sequencing: a throw skips the rest, the effects made so far stay. *)
Definition bind {T A B} (c : M T A) (k : A -> M T B) : M T B :=
  fun w =>
    match c w with
    | (Normal a, w') => k a w'
    | (Throw e, w') => (Throw e, w')
    end.

Definition get_this {T} : M T T := fun w => (Normal (this w), w).

Definition set_this {T} (t : T) : M T unit :=
  fun w => (Normal tt, {| this := t; heap := heap w; ext := ext w; trace := trace w |}).

Definition emit {T} (ev : Event) : M T unit :=
  fun w => (Normal tt, {| this := this w; heap := heap w; ext := ext w;
                          trace := trace w ++ [ev] |}).

(** A call to an external collaborator. *)
Definition call {T A} (op : Ext -> completion A * Ext) : M T A :=
  fun w =>
    let '(r, e) := op (ext w) in
    (r, {| this := this w; heap := heap w; ext := e; trace := trace w |}).

(** A call to an external collaborator that cannot throw. *)
Definition call_total {T A} (op : Ext -> A * Ext) : M T A :=
  fun w =>
    let '(a, e) := op (ext w) in
    (Normal a, {| this := this w; heap := heap w; ext := e; trace := trace w |}).

(** A call to a message processor (no effect on the world). *)
Definition pure_call {T A} (r : completion A) : M T A := fun w => (r, w).

(** Allocation of a new session object. *)
Definition alloc {T} (s : Session) : M T loc :=
  fun w =>
    let l := fresh (dom (heap w)) in
    (Normal l, {| this := this w; heap := <[l := s]> (heap w); ext := ext w;
                  trace := trace w |}).

(** In-place update of the session object at [l]. *)
Definition update_object {T} (l : loc) (f : Session -> Session) : M T unit :=
  fun w =>
    match heap w !! l with
    | Some s => (Normal tt, {| this := this w; heap := <[l := f s]> (heap w);
                               ext := ext w; trace := trace w |})
    | None => (Throw "TypeError: dangling session reference", w)
    end.

(** The world right after a manager with receiver [t] has been constructed. *)
Definition initial_world {T} (t : T) (e : Ext) : World T :=
  {| this := t; heap := ∅; ext := e; trace := [] |}.

End Runtime.

Arguments this {_ T} _.
Arguments heap {_ T} _.
Arguments ext {_ T} _.
Arguments trace {_ T} _.
Arguments Build_World {_ T} _ _ _ _.

Notation "x <~ c ;; k" := (bind c (fun x => k))
  (at level 100, c at next level, right associativity).
Notation "c ;;; k" := (bind c (fun _ => k))
  (at level 100, right associativity).

(** ** The SessionManager class (sessions/manager.ts) *)

Module SessionManager.
Section WithCollaborators.
Context `{Collaborators}.

(** The receiver.  [_kernelManager] and [_userconnManager] are handles to
    collaborators whose operations are those of [Collaborators]. *)
Record t : Type := {
  _idToSession : gmap string loc;
  _messageProcessors : list MessageProcessor;
  _storage : IStorage
}.

Definition __temp_notebook_path : string := "temp-notebook".

Definition _createSession (sessionId : string) (connection : IUserConnection) : M t loc :=
  iopub <~ call getAvailablePort ;;
  shell <~ call getAvailablePort ;;
  kernel <~ call (kernelManager_create {| iopubPort := iopub; shellPort := shell |}) ;;
  me <~ get_this ;;
  notebook <~ call (ActiveNotebook_open __temp_notebook_path (_storage me)) ;;
  alloc (new_Session sessionId connection kernel notebook bound_handleMessage).

(** The [for] loop of [_handleMessage], from index [i] on; [rest] is
    [this._messageProcessors] from index [i].  The result is the value of
    [processedMessage] when the loop is left. *)
Fixpoint processing_loop (i : nat) (rest : list MessageProcessor)
    (message processedMessage : any) (session : loc) : M t any :=
  match rest with
  | [] => ret processedMessage
  | p :: rest' =>
      emit (EvProcessor i processedMessage session) ;;;
      processedMessage' <~ pure_call (p processedMessage session) ;;
      if is_null processedMessage' then
        emit (EvLog message) ;;;
        ret processedMessage'
      else processing_loop (S i) rest' message processedMessage' session
  end.

Definition _handleMessage (message : any) (session : loc) (callback : EventHandler)
    : M t unit :=
  me <~ get_this ;;
  processedMessage <~ processing_loop 0 (_messageProcessors me) message message session ;;
  if is_null processedMessage then ret tt
  else
    emit (EvCallback processedMessage) ;;;
    call (callback processedMessage).

Definition _handleUserConnect (connection : IUserConnection) : M t unit :=
  let sessionId := getSessionId connection in
  me <~ get_this ;;
  match get_property (_idToSession me) sessionId with
  | Undefined =>
      (* Create a brand new session object *)
      session <~ _createSession sessionId connection ;;
      me <~ get_this ;;
      set_this {| _idToSession := <[sessionId := session]> (_idToSession me);
                  _messageProcessors := _messageProcessors me;
                  _storage := _storage me |}
  | Own session =>
      (* Update existing session object with new user connection *)
      update_object session (fun s => updateUserConnection s connection)
  | Inherited =>
      (* truthy, but with no updateUserConnection method to call *)
      throw "TypeError: session.updateUserConnection is not a function"
  end.

(** The body is empty in the source (a TODO comment only). *)
Definition _handleUserDisconnect (connection : IUserConnection) : M t unit :=
  ret tt.

(** [_registerHandlers] subscribes the two handlers above to the connect
    and disconnect events; what an event then runs is: *)
Definition _registerHandlers (ev : ConnectionEvent) : M t unit :=
  match ev with
  | Connect connection => _handleUserConnect connection
  | Disconnect connection => _handleUserDisconnect connection
  end.

(** The receiver as the constructor leaves it. *)
Definition constructor (storage : IStorage) (messageProcessors : list MessageProcessor) : t :=
  {| _idToSession := ∅; _messageProcessors := messageProcessors; _storage := storage |}.

End WithCollaborators.
End SessionManager.

(** ** The MessagePipeline class (the variant that builds blank notebooks) *)

Module MessagePipeline.
Section WithCollaborators.
Context `{Collaborators}.

Record t : Type := {
  _idToSession : gmap string loc;
  _messageProcessors : list MessageProcessor
}.

(** [notebook] is mutated in place in the source; here the mutated notebook
    is returned. *)
Definition _appendMarkdownCell (notebook : Notebook) : M t Notebook :=
  id <~ call_total uuid_v4 ;;
  match cells notebook !! id with
  | None => (* only insert the cell once *)
      ret {| notebook_id := notebook_id notebook;
             cells := <[id := {| cell_id := id; cell_type := "markdown";
                                 cell_source := "# DataLab has Markdown support";
                                 cell_active := Some true |}]> (cells notebook);
             worksheet := worksheet notebook ++ [id] |}
  | Some _ => ret notebook
  end.

Definition _appendCodeCell (notebook : Notebook) : M t Notebook :=
  id <~ call_total uuid_v4 ;;
  match cells notebook !! id with
  | None => (* only insert the cell once *)
      ret {| notebook_id := notebook_id notebook;
             cells := <[id := {| cell_id := id; cell_type := "code";
                                 cell_source := ""; cell_active := None |}]>
                        (cells notebook);
             worksheet := worksheet notebook ++ [id] |}
  | Some _ => ret notebook
  end.

Definition _createBlankNotebook : M t IActiveNotebook :=
  id <~ call_total uuid_v4 ;;
  let notebook := {| notebook_id := id; cells := ∅; worksheet := [] |} in
  notebook <~ _appendMarkdownCell notebook ;;
  notebook <~ _appendCodeCell notebook ;;
  call (ActiveNotebook_wrap notebook).

Definition _createSession (sessionId : string) (connection : IUserConnection) : M t loc :=
  iopub <~ call getAvailablePort ;;
  shell <~ call getAvailablePort ;;
  kernel <~ call (kernelManager_create {| iopubPort := iopub; shellPort := shell |}) ;;
  notebook <~ _createBlankNotebook ;;
  alloc (new_Session sessionId connection kernel notebook bound_handleMessage).

(** The [for] loop of [_handleMessage], from index [i] on. *)
Fixpoint processing_loop (i : nat) (rest : list MessageProcessor)
    (message processedMessage : any) (session : loc) : M t any :=
  match rest with
  | [] => ret processedMessage
  | p :: rest' =>
      emit (EvProcessor i processedMessage session) ;;;
      processedMessage' <~ pure_call (p processedMessage session) ;;
      if is_null processedMessage' then
        emit (EvLog message) ;;;
        ret processedMessage'
      else processing_loop (S i) rest' message processedMessage' session
  end.

Definition _handleMessage (message : any) (session : loc) (callback : EventHandler)
    : M t unit :=
  me <~ get_this ;;
  processedMessage <~ processing_loop 0 (_messageProcessors me) message message session ;;
  if is_null processedMessage then ret tt
  else
    emit (EvCallback processedMessage) ;;;
    call (callback processedMessage).

Definition _handleUserConnect (connection : IUserConnection) : M t unit :=
  let sessionId := getSessionId connection in
  me <~ get_this ;;
  match get_property (_idToSession me) sessionId with
  | Undefined =>
      (* Create a brand new session object *)
      session <~ _createSession sessionId connection ;;
      me <~ get_this ;;
      set_this {| _idToSession := <[sessionId := session]> (_idToSession me);
                  _messageProcessors := _messageProcessors me |}
  | Own session =>
      (* Update existing session object with new user connection *)
      update_object session (fun s => updateUserConnection s connection)
  | Inherited =>
      (* truthy, but with no updateUserConnection method to call *)
      throw "TypeError: session.updateUserConnection is not a function"
  end.

(** The body is empty in the source (a TODO comment only). *)
Definition _handleUserDisconnect (connection : IUserConnection) : M t unit :=
  ret tt.

Definition _registerHandlers (ev : ConnectionEvent) : M t unit :=
  match ev with
  | Connect connection => _handleUserConnect connection
  | Disconnect connection => _handleUserDisconnect connection
  end.

Definition constructor (messageProcessors : list MessageProcessor) : t :=
  {| _idToSession := ∅; _messageProcessors := messageProcessors |}.

End WithCollaborators.
End MessagePipeline.

(** ** The event loop

    Node runs one event handler at a time, each to completion.  Connection
    events that are pending together are dispatched one after the other in an
    order the program does not control. *)

Section EventLoop.
Context `{Collaborators} {T : Type}.
Variable handlers : ConnectionEvent -> M T unit.

Record LoopState : Type := {
  pending : list ConnectionEvent;
  finished : list (ConnectionEvent * completion unit);
  world : World T
}.

(** One turn: any pending event is taken and its handler runs to
    completion; an error thrown by the handler goes to the emitter, the
    loop goes on. *)
Inductive turn : LoopState -> LoopState -> Prop :=
  | turn_dispatch before ev after done w r w' :
      handlers ev w = (r, w') ->
      turn {| pending := before ++ ev :: after; finished := done; world := w |}
           {| pending := before ++ after; finished := done ++ [(ev, r)]; world := w' |}.

Inductive turns : LoopState -> LoopState -> Prop :=
  | turns_refl st : turns st st
  | turns_step st1 st2 st3 : turn st1 st2 -> turns st2 st3 -> turns st1 st3.

End EventLoop.

(** ** Vocabulary of the properties *)

(** [compose [p1; ...; pn] m s] is [pn(...(p2(p1(m, s), s))..., s)]: plain
    left-to-right composition, a throw ending it. *)
Fixpoint compose (ps : list MessageProcessor) (m : any) (s : loc) : completion any :=
  match ps with
  | [] => Normal m
  | p :: ps' =>
      match p m s with
      | Normal m' => compose ps' m' s
      | Throw e => Throw e
      end
  end.

(** The arguments the delivery callback was invoked with, in order. *)
Fixpoint callbacks (evs : list Event) : list any :=
  match evs with
  | [] => []
  | EvCallback v :: evs' => v :: callbacks evs'
  | _ :: evs' => callbacks evs'
  end.

(** The processors that ran, by index and with their argument, in order. *)
Fixpoint processor_calls (evs : list Event) : list (nat * any) :=
  match evs with
  | [] => []
  | EvProcessor i v _ :: evs' => (i, v) :: processor_calls evs'
  | _ :: evs' => processor_calls evs'
  end.

(** The value of [processedMessage] when the loop over [rest] is left, and
    the events of the loop, as functions of the processors alone. *)
Fixpoint loop_result (rest : list MessageProcessor) (v : any) (s : loc) : completion any :=
  match rest with
  | [] => Normal v
  | p :: rest' =>
      match p v s with
      | Normal v' => if is_null v' then Normal v' else loop_result rest' v' s
      | Throw e => Throw e
      end
  end.

Fixpoint loop_events (i : nat) (rest : list MessageProcessor) (message v : any) (s : loc)
    : list Event :=
  match rest with
  | [] => []
  | p :: rest' =>
      EvProcessor i v s ::
      match p v s with
      | Normal v' =>
          if is_null v' then [EvLog message] else loop_events (S i) rest' message v' s
      | Throw e => []
      end
  end.

(** The default document in the words of the specification: a worksheet of
    two cell ids, a markdown cell with the placeholder text first, then a
    code cell with empty source, and a cell map of exactly these two. *)
Definition markdown_cell (i : string) : Cell :=
  {| cell_id := i; cell_type := "markdown";
     cell_source := "# DataLab has Markdown support"; cell_active := Some true |}.

Definition code_cell (i : string) : Cell :=
  {| cell_id := i; cell_type := "code"; cell_source := ""; cell_active := None |}.

Definition default_document (id a b : string) : Notebook :=
  {| notebook_id := id;
     cells := {[ a := markdown_cell a; b := code_cell b ]};
     worksheet := [a; b] |}.

Section Observations.
Context `{Collaborators} {T : Type}.

(** The run [r] started in [w] completed with [c], appended the events
    [evs] to the trace, left the external state at [e] and changed neither
    the receiver nor the heap. *)
Definition ran {A} (r : completion A * World T) (w : World T)
    (c : completion A) (e : Ext) (evs : list Event) : Prop :=
  r = (c, {| this := this w; heap := heap w; ext := e; trace := trace w ++ evs |}).

(** What handling a message does, given the processors [ps] of the
    receiver: the loop's events, then the callback unless the loop threw or
    ended on [null]. *)
Definition handled (ps : list MessageProcessor) (m : any) (s : loc)
    (cb : EventHandler) (w : World T) : completion unit * World T :=
  match loop_result ps m s with
  | Throw e =>
      (Throw e, {| this := this w; heap := heap w; ext := ext w;
                   trace := trace w ++ loop_events 0 ps m m s |})
  | Normal v =>
      if is_null v then
        (Normal tt, {| this := this w; heap := heap w; ext := ext w;
                       trace := trace w ++ loop_events 0 ps m m s |})
      else
        (fst (cb v (ext w)),
         {| this := this w; heap := heap w; ext := snd (cb v (ext w));
            trace := trace w ++ loop_events 0 ps m m s ++ [EvCallback v] |})
  end.

(** None of the first [i] processors returns the sentinel, when applied one
    after the other to [m]. *)
Definition passes (ps : list MessageProcessor) (m : any) (s : loc) (i : nat) : Prop :=
  forall j, j < i -> compose (take (S j) ps) m s <> Normal VNull.

(** The events [evs] show the processors 0, ..., k-1 of [ps] called in this
    order and no other, processor [j] on the result of composing the
    processors before it. *)
Definition in_order (evs : list Event) (ps : list MessageProcessor) (m : any) (s : loc)
    (k : nat) : Prop :=
  fst <$> processor_calls evs = seq 0 k /\
  (forall j, j < k ->
     exists b, compose (take j ps) m s = Normal b /\
               processor_calls evs !! j = Some (j, b)).

(** The run [r] called every processor of [ps], in order, then the callback
    exactly once, on [v]; its completion and its effect on the external
    state are the callback's. *)
Definition delivers_once (r : completion unit * World T) (w : World T)
    (ps : list MessageProcessor) (m : any) (s : loc) (cb : EventHandler) (v : any) : Prop :=
  exists evs,
    ran r w (fst (cb v (ext w))) (snd (cb v (ext w))) evs /\
    callbacks evs = [v] /\
    in_order evs ps m s (length ps).

(** The run [r] called the processors up to and including processor [i],
    in order, and nothing after it: no later processor, no callback; it
    completed with [c]. *)
Definition stops_at (r : completion unit * World T) (w : World T)
    (ps : list MessageProcessor) (m : any) (s : loc) (i : nat) (c : completion unit) : Prop :=
  exists evs,
    ran r w c (ext w) evs /\
    callbacks evs = [] /\
    in_order evs ps m s (S i).

(** The session objects allocated between [w] and [w']. *)
Definition created (w w' : World T) : gset loc := dom (heap w') ∖ dom (heap w).

(** Between [w] and [w'] exactly one session object was allocated; it has
    key [k], the registry binds [k] to it and is otherwise as in [w], and
    every other object is as in [w]. *)
Definition one_session_for (registry : T -> gmap string loc) (k : string)
    (w w' : World T) : Prop :=
  exists l s,
    (l ∉ dom (heap w)) /\
    created w w' = {[l]} /\
    registry (this w') = <[k := l]> (registry (this w)) /\
    heap w' !! l = Some s /\
    session_id s = k /\
    (forall l', l' <> l -> heap w' !! l' = heap w !! l').

(** The run [r] completed normally and did nothing but replace the session
    object [s] at [l] by one with the connection [c] and the kernel, the
    notebook, the key and the handler of [s]. *)
Definition reattaches (r : completion unit * World T) (w : World T)
    (l : loc) (s : Session) (c : IUserConnection) : Prop :=
  exists s',
    r = (Normal tt, {| this := this w; heap := <[l := s']> (heap w);
                       ext := ext w; trace := trace w |}) /\
    userconn s' = Some c /\
    kernel s' = kernel s /\
    notebook s' = notebook s /\
    session_id s' = session_id s /\
    messageHandler s' = messageHandler s.

(** The disconnect of [c] moves the session registered under the key of [c]
    from ATTACHED to DETACHED and keeps its kernel, its notebook and its
    registry entry. *)
Definition detaches (registry : T -> gmap string loc)
    (disconnect : IUserConnection -> M T unit) (w : World T) (c : IUserConnection) : Prop :=
  forall l s,
    registry (this w) !! getSessionId c = Some l ->
    heap w !! l = Some s ->
    userconn s = Some c ->
    exists s',
      registry (this (snd (disconnect c w))) !! getSessionId c = Some l /\
      heap (snd (disconnect c w)) !! l = Some s' /\
      session_state s' = DETACHED /\
      kernel s' = kernel s /\
      notebook s' = notebook s.

(** Every registry entry refers to a session object on the heap, whose key
    is the entry's. *)
Definition registry_sound (registry : T -> gmap string loc) (w : World T) : Prop :=
  forall k l, registry (this w) !! k = Some l ->
    exists s, heap w !! l = Some s /\ session_id s = k.

(** Every handler of [done] threw, and neither the receiver nor the heap
    changed between [w] and [w']. *)
Definition nothing_registered (done : list (ConnectionEvent * completion unit))
    (w w' : World T) : Prop :=
  (forall ev r, (ev, r) ∈ done -> exists e, r = Throw e) /\
  this w' = this w /\
  heap w' = heap w.

End Observations.

(** Where the construction of the bindings of a new session can fail: at the
    allocation of either port, at the creation of the kernel, or at the
    construction of the notebook; [x] is the external state before, [x'] the
    one the failing call leaves. *)
Inductive binding_failure `{Collaborators} (storage : IStorage) (x : Ext) (e : Error) (x' : Ext)
    : Prop :=
  | iopub_port_fails :
      getAvailablePort x = (Throw e, x') ->
      binding_failure storage x e x'
  | shell_port_fails p1 x1 :
      getAvailablePort x = (Normal p1, x1) ->
      getAvailablePort x1 = (Throw e, x') ->
      binding_failure storage x e x'
  | kernel_creation_fails p1 x1 p2 x2 :
      getAvailablePort x = (Normal p1, x1) ->
      getAvailablePort x1 = (Normal p2, x2) ->
      kernelManager_create {| iopubPort := p1; shellPort := p2 |} x2 = (Throw e, x') ->
      binding_failure storage x e x'
  | notebook_construction_fails p1 x1 p2 x2 kern x3 :
      getAvailablePort x = (Normal p1, x1) ->
      getAvailablePort x1 = (Normal p2, x2) ->
      kernelManager_create {| iopubPort := p1; shellPort := p2 |} x2 = (Normal kern, x3) ->
      ActiveNotebook_open SessionManager.__temp_notebook_path storage x3 = (Throw e, x') ->
      binding_failure storage x e x'.

(** ** A concrete set of collaborators

    The external state is a counter: ports are handed out upwards from 8000,
    a kernel handle is the configuration it was made with, identifiers are
    the successive letters from "a", and a notebook object is its data. *)

Module Demo.

Definition letter (n : nat) : string := String (Ascii.ascii_of_nat (97 + n)) EmptyString.

#[export] Instance collaborators : Collaborators := {|
  Ext := nat;
  IKernel := KernelConfig;
  IActiveNotebook := Notebook;
  IStorage := unit;
  getAvailablePort := fun n => (Normal (8000 + N.of_nat n)%N, S n);
  kernelManager_create := fun cfg n => (Normal cfg, n);
  ActiveNotebook_open := fun path _ n =>
    (Normal {| notebook_id := path; cells := ∅; worksheet := [] |}, n);
  ActiveNotebook_wrap := fun nb n => (Normal nb, n);
  uuid_v4 := fun n => (letter n, S n)
|}.

(** The same collaborators with a kernel manager that cannot start a kernel. *)
Definition exhausted : Collaborators := {|
  Ext := nat;
  IKernel := KernelConfig;
  IActiveNotebook := Notebook;
  IStorage := unit;
  getAvailablePort := fun n => (Normal (8000 + N.of_nat n)%N, S n);
  kernelManager_create := fun cfg n => (Throw "no kernel available", n);
  ActiveNotebook_open := fun path _ n =>
    (Normal {| notebook_id := path; cells := ∅; worksheet := [] |}, n);
  ActiveNotebook_wrap := fun nb n => (Normal nb, n);
  uuid_v4 := fun n => (letter n, S n)
|}.

(** Processors: upper-case a string, or the "type" field of an object; drop
    everything; fail. *)
Definition upcase_char (c : Ascii.ascii) : Ascii.ascii :=
  let n := Ascii.nat_of_ascii c in
  if Nat.leb 97 n && Nat.leb n 122 then Ascii.ascii_of_nat (n - 32) else c.

Fixpoint upcase (s : string) : string :=
  match s with
  | EmptyString => EmptyString
  | String c s' => String (upcase_char c) (upcase s')
  end.

Definition upcase_type (field : string * any) : string * any :=
  match field with
  | (name, VStr s) => if String.eqb name "type" then (name, VStr (upcase s)) else field
  | _ => field
  end.

Definition upper : MessageProcessor :=
  fun m _ => match m with
             | VStr s => Normal (VStr (upcase s))
             | VObj fields => Normal (VObj (upcase_type <$> fields))
             | _ => Normal m
             end.
Definition veto : MessageProcessor := fun _ _ => Normal VNull.
Definition broken : MessageProcessor := fun _ _ => Throw "processor failed".

(** A callback that delivers without error. *)
Definition deliver : @EventHandler collaborators := fun _ n => (Normal tt, n).

Definition alice : IUserConnection := {| connectionId := 1; getSessionId := "abc" |}.
Definition alice' : IUserConnection := {| connectionId := 2; getSessionId := "abc" |}.

(** The session [alice] gets from a new manager, and the one she gets from a
    new pipeline. *)
Definition kernel0 : @IKernel collaborators := {| iopubPort := 8000; shellPort := 8001 |}.

Definition stored_notebook : @IActiveNotebook collaborators :=
  {| notebook_id := "temp-notebook"; cells := ∅; worksheet := [] |}.

Definition blank_notebook : @IActiveNotebook collaborators :=
  {| notebook_id := "c";
     cells := {[ "d" := {| cell_id := "d"; cell_type := "markdown";
                           cell_source := "# DataLab has Markdown support";
                           cell_active := Some true |};
                 "e" := {| cell_id := "e"; cell_type := "code";
                           cell_source := ""; cell_active := None |} ]};
     worksheet := ["d"; "e"] |}.

Definition manager_session : @Session collaborators :=
  new_Session "abc" alice kernel0 stored_notebook bound_handleMessage.

Definition pipeline_session : @Session collaborators :=
  new_Session "abc" alice kernel0 blank_notebook bound_handleMessage.

(** The manager after [alice] has connected: one session, at object 1. *)
Definition attached : World SessionManager.t :=
  {| this := {| SessionManager._idToSession := {[ "abc" := 1%positive ]};
                SessionManager._messageProcessors := [];
                SessionManager._storage := tt |};
     heap := {[ 1%positive := manager_session ]};
     ext := 2;
     trace := [] |}.

Definition exhausted_manager0 : @World exhausted (@SessionManager.t exhausted) :=
  @initial_world exhausted _ (@SessionManager.constructor exhausted tt []) 0.

Definition manager0 (ps : list MessageProcessor) : World SessionManager.t :=
  initial_world (SessionManager.constructor tt ps) 0.
Definition pipeline0 (ps : list MessageProcessor) : World MessagePipeline.t :=
  initial_world (MessagePipeline.constructor ps) 0.

(** [alice] and [alice'] connect at once; the loop happens to take the event
    of [alice'] first. *)
Definition both_pending {T} (w : World T) : LoopState :=
  {| pending := [Connect alice; Connect alice']; finished := []; world := w |}.

Definition both_handled {T} (handlers : ConnectionEvent -> M T unit) (w : World T)
    : LoopState :=
  {| pending := [];
     finished := [(Connect alice', fst (handlers (Connect alice') w));
                  (Connect alice,
                   fst (handlers (Connect alice) (snd (handlers (Connect alice') w))))];
     world := snd (handlers (Connect alice) (snd (handlers (Connect alice') w))) |}.

End Demo.

(** ** Further vocabulary *)

(** The messages written to the log, in order. *)
Fixpoint logs (evs : list Event) : list any :=
  match evs with
  | [] => []
  | EvLog v :: evs' => v :: logs evs'
  | _ :: evs' => logs evs'
  end.

(** The events of handling [m] with the processors [ps], as a function of
    the processors alone: those of the loop, then the callback if the loop
    ends on a value other than [null]. *)
Definition handled_events (ps : list MessageProcessor) (m : any) (s : loc) : list Event :=
  loop_events 0 ps m m s ++
  match loop_result ps m s with
  | Normal v => if is_null v then [] else [EvCallback v]
  | Throw _ => []
  end.

(** A worksheet lists every cell of the cell map exactly once. *)
Definition notebook_consistent (d : Notebook) : Prop :=
  NoDup (worksheet d) /\
  (forall j, j ∈ worksheet d <-> is_Some (cells d !! j)).

Section MoreObservations.
Context `{Collaborators} {T : Type}.

(** The run [r] of an append on the document [d] returned a document with
    the id of [d], every cell of [d] as it was, the worksheet of [d] as a
    prefix of its worksheet, and consistent if [d] was; it touched nothing of
    the world but the external state. *)
Definition grows (d : Notebook) (r : completion Notebook * World T) (w : World T) : Prop :=
  exists d' x',
    r = (Normal d', {| this := this w; heap := heap w; ext := x'; trace := trace w |}) /\
    notebook_id d' = notebook_id d /\
    (forall j c, cells d !! j = Some c -> cells d' !! j = Some c) /\
    worksheet d `prefix_of` worksheet d' /\
    (notebook_consistent d -> notebook_consistent d').

(** The events appended to the trace between [w] and [w']. *)
Definition emitted (w w' : World T) : list Event :=
  drop (length (trace w)) (trace w').

(** The run from [w] to [w'] of a handler with the processors [ps] changed
    neither the receiver nor the heap and only appended to the trace; what it
    appended is the calls of the processors 0..k-1, in order, for some k up
    to the length of [ps], with no callback among them, followed by nothing
    or, when k is the length of [ps], by one call of the callback: the
    callback comes last, after every processor. *)
Definition bounded_run (ps : list MessageProcessor) (w w' : World T) : Prop :=
  this w' = this w /\
  heap w' = heap w /\
  trace w' = trace w ++ emitted w w' /\
  exists k pre,
    k <= length ps /\
    fst <$> processor_calls pre = seq 0 k /\
    callbacks pre = [] /\
    (emitted w w' = pre \/
     exists v, k = length ps /\ emitted w w' = pre ++ [EvCallback v]).

(** The events [evs] of a run completed with [r] hold no log line, or end
    with the one log line of the run, no callback before it, and then the
    run returned normally. *)
Definition log_discipline (r : completion unit) (evs : list Event) : Prop :=
  logs evs = [] \/
  (exists pre v, evs = pre ++ [EvLog v] /\ logs pre = [] /\ callbacks pre = [] /\
                 r = Normal tt).


End MoreObservations.

Module Corner.

(** Two connections whose session id names a member of Object.prototype. *)
Definition mallory : IUserConnection :=
  {| connectionId := 3; getSessionId := "constructor" |}.
Definition mallory' : IUserConnection :=
  {| connectionId := 4; getSessionId := "constructor" |}.

(** A second user, and the manager after [alice] and [bob] have connected. *)
Definition bob : IUserConnection := {| connectionId := 5; getSessionId := "xyz" |}.

Definition bob_kernel : @IKernel Demo.collaborators :=
  {| iopubPort := 8002; shellPort := 8003 |}.

Definition bob_session : @Session Demo.collaborators :=
  new_Session "xyz" bob bob_kernel Demo.stored_notebook bound_handleMessage.

Definition two_sessions : @World Demo.collaborators (@SessionManager.t Demo.collaborators) :=
  @Build_World Demo.collaborators _
    (@SessionManager.Build_t Demo.collaborators
       {[ "abc" := 1%positive; "xyz" := 2%positive ]} [] tt)
    {[ 1%positive := Demo.manager_session; 2%positive := bob_session ]}
    4 [].

(** Both connections of [mallory] pending at once, handled in this order. *)
Definition mallory_handled {T} (handlers : ConnectionEvent -> M T unit) (w : World T)
    : @LoopState Demo.collaborators T :=
  {| pending := [];
     finished := [(Connect mallory, fst (handlers (Connect mallory) w));
                  (Connect mallory',
                   fst (handlers (Connect mallory') (snd (handlers (Connect mallory) w))))];
     world := snd (handlers (Connect mallory') (snd (handlers (Connect mallory) w))) |}.

End Corner.

Module Collide.

(** Collaborators whose identifier generator hands out "a" every time. *)
Definition collaborators : Collaborators := {|
  Ext := nat;
  IKernel := KernelConfig;
  IActiveNotebook := Notebook;
  IStorage := unit;
  getAvailablePort := fun n => (Normal (8000 + N.of_nat n)%N, S n);
  kernelManager_create := fun cfg n => (Normal cfg, n);
  ActiveNotebook_open := fun path _ n =>
    (Normal {| notebook_id := path; cells := ∅; worksheet := [] |}, n);
  ActiveNotebook_wrap := fun nb n => (Normal nb, n);
  uuid_v4 := fun n => ("a", S n)
|}.

Definition pipeline0 : @World collaborators MessagePipeline.t :=
  @initial_world collaborators _ (MessagePipeline.constructor []) 0.

End Collide.

Module Failing.

(** A new pipeline over the collaborators that cannot start a kernel. *)
Definition pipeline0 : @World Demo.exhausted MessagePipeline.t :=
  @initial_world Demo.exhausted _ (MessagePipeline.constructor []) 0.

End Failing.

(** * Properties *)

(** ** The processing loop and the message handler as pure functions *)

Section HandlerFacts.
Context `{Collaborators}.

Lemma SessionManager_loop_spec rest i message v s (w : World SessionManager.t) :
  SessionManager.processing_loop i rest message v s w =
    (loop_result rest v s,
     {| this := this w; heap := heap w; ext := ext w;
        trace := trace w ++ loop_events i rest message v s |}).
Proof.
  revert i v w. induction rest as [|p rest IH]; intros i v w; simpl.
  - unfold ret. rewrite app_nil_r. by destruct w.
  - unfold bind, emit, pure_call; simpl.
    destruct (p v s) as [v'|e]; simpl.
    + destruct (is_null v'); simpl.
      * unfold ret. by rewrite <- app_assoc.
      * rewrite IH; simpl. by rewrite <- app_assoc.
    + done.
Qed.

Lemma MessagePipeline_loop_spec rest i message v s (w : World MessagePipeline.t) :
  MessagePipeline.processing_loop i rest message v s w =
    (loop_result rest v s,
     {| this := this w; heap := heap w; ext := ext w;
        trace := trace w ++ loop_events i rest message v s |}).
Proof.
  revert i v w. induction rest as [|p rest IH]; intros i v w; simpl.
  - unfold ret. rewrite app_nil_r. by destruct w.
  - unfold bind, emit, pure_call; simpl.
    destruct (p v s) as [v'|e]; simpl.
    + destruct (is_null v'); simpl.
      * unfold ret. by rewrite <- app_assoc.
      * rewrite IH; simpl. by rewrite <- app_assoc.
    + done.
Qed.

Lemma SessionManager_handleMessage_spec m s cb (w : World SessionManager.t) :
  SessionManager._handleMessage m s cb w =
    handled (SessionManager._messageProcessors (this w)) m s cb w.
Proof.
  unfold SessionManager._handleMessage, handled, bind, get_this; simpl.
  rewrite SessionManager_loop_spec.
  destruct (loop_result _ m s) as [v|e]; [|done].
  destruct (is_null v); [done|].
  unfold emit, call; simpl. destruct (cb v (ext w)); simpl.
  by rewrite <- app_assoc.
Qed.

Lemma MessagePipeline_handleMessage_spec m s cb (w : World MessagePipeline.t) :
  MessagePipeline._handleMessage m s cb w =
    handled (MessagePipeline._messageProcessors (this w)) m s cb w.
Proof.
  unfold MessagePipeline._handleMessage, handled, bind, get_this; simpl.
  rewrite MessagePipeline_loop_spec.
  destruct (loop_result _ m s) as [v|e]; [|done].
  destruct (is_null v); [done|].
  unfold emit, call; simpl. destruct (cb v (ext w)); simpl.
  by rewrite <- app_assoc.
Qed.

End HandlerFacts.

(** ** Runs of the processor chain *)

Lemma callbacks_app evs1 evs2 : callbacks (evs1 ++ evs2) = callbacks evs1 ++ callbacks evs2.
Proof.
  induction evs1 as [|[i v s|v|v] evs1 IH]; simpl; [done| done | done |].
  by rewrite IH.
Qed.

Lemma processor_calls_app evs1 evs2 :
  processor_calls (evs1 ++ evs2) = processor_calls evs1 ++ processor_calls evs2.
Proof.
  induction evs1 as [|[i v s|v|v] evs1 IH]; simpl; [done| | done | done].
  by rewrite IH.
Qed.

Lemma compose_cons_normal p ps m m' s :
  p m s = Normal m' -> compose (p :: ps) m s = compose ps m' s.
Proof. intros Hp; simpl. by rewrite Hp. Qed.

Lemma passes_head p ps m m' s i :
  p m s = Normal m' -> passes (p :: ps) m s (S i) -> m' <> VNull.
Proof.
  intros Hp Hpass Hnull. apply (Hpass 0); [lia|].
  simpl. rewrite Hp. simpl. by rewrite Hnull.
Qed.

Lemma passes_tail p ps m m' s i :
  p m s = Normal m' -> passes (p :: ps) m s (S i) -> passes ps m' s i.
Proof.
  intros Hp Hpass j Hj. specialize (Hpass (S j) ltac:(lia)).
  change (take (S (S j)) (p :: ps)) with (p :: take (S j) ps) in Hpass.
  by rewrite (compose_cons_normal _ _ _ _ _ Hp) in Hpass.
Qed.

Lemma is_null_false v : v <> VNull -> is_null v = false.
Proof. by destruct v. Qed.

(** As long as no processor has thrown or returned [null], the loop has run
    the processors in order, each on the result of the one before. *)
Lemma loop_prefix ps : forall i i0 message m s a,
  i <= length ps ->
  passes ps m s i ->
  compose (take i ps) m s = Normal a ->
  loop_result ps m s = loop_result (drop i ps) a s /\
  exists pre,
    loop_events i0 ps message m s =
      pre ++ loop_events (i0 + i) (drop i ps) message a s /\
    callbacks pre = [] /\
    fst <$> processor_calls pre = seq i0 i /\
    (forall j, j < i ->
       exists b, compose (take j ps) m s = Normal b /\
                 processor_calls pre !! j = Some (i0 + j, b)).
Proof.
  induction ps as [|p ps IH]; intros i i0 message m s a Hle Hpass Hrun.
  - simpl in Hle. assert (i = 0) as -> by lia. simpl in *.
    injection Hrun as <-. split; [done|]. exists []. simpl.
    repeat split. intros j Hj; lia.
  - destruct i as [|i].
    + simpl in Hrun. injection Hrun as <-. split; [done|]. exists [].
      rewrite Nat.add_0_r. simpl. repeat split. intros j Hj; lia.
    + change (take (S i) (p :: ps)) with (p :: take i ps) in Hrun.
      destruct (p m s) as [m'|e] eqn:Hp; [|simpl in Hrun; by rewrite Hp in Hrun].
      rewrite (compose_cons_normal _ _ _ _ _ Hp) in Hrun.
      pose proof (is_null_false _ (passes_head _ _ _ _ _ _ Hp Hpass)) as Hnn.
      pose proof (passes_tail _ _ _ _ _ _ Hp Hpass) as Hpass'.
      simpl in Hle.
      destruct (IH i (S i0) message m' s a ltac:(lia) Hpass' Hrun)
        as (Hres & pre & Hev & Hcb & Hidx & Hargs).
      split.
      * simpl. by rewrite Hp, Hnn.
      * exists (EvProcessor i0 m s :: pre). simpl. rewrite Hp, Hnn.
        repeat split.
        -- rewrite Hev. by replace (i0 + S i) with (S i0 + i) by lia.
        -- done.
        -- f_equal. exact Hidx.
        -- intros [|j] Hj.
           ++ exists m. rewrite take_0. simpl. by rewrite Nat.add_0_r.
           ++ destruct (Hargs j ltac:(lia)) as (b & Hb & Hlook).
              exists b. change (take (S j) (p :: ps)) with (p :: take j ps).
              rewrite (compose_cons_normal _ _ _ _ _ Hp). split; [done|].
              simpl. by replace (i0 + S j) with (S i0 + j) by lia.
Qed.

Section HandledFacts.
Context `{Collaborators} {T : Type}.
Implicit Types (w : World T) (ps : list MessageProcessor) (cb : EventHandler).

Lemma handled_delivered ps m s cb w v :
  m <> VNull ->
  passes ps m s (length ps) ->
  compose ps m s = Normal v ->
  delivers_once (handled ps m s cb w) w ps m s cb v.
Proof.
  intros Hm Hpass Hrun.
  assert (v <> VNull) as Hv.
  { destruct (decide (length ps = 0)) as [Hn|Hn].
    - destruct ps; [|done]. simpl in Hrun. by injection Hrun as <-.
    - intros ->. apply (Hpass (length ps - 1)); [lia|].
      replace (S (length ps - 1)) with (length ps) by lia.
      by rewrite take_ge by lia. }
  destruct (loop_prefix ps (length ps) 0 m m s v) as (Hres & pre & Hev & Hcb & Hidx & Hargs);
    [lia | done | by rewrite take_ge by lia |].
  rewrite drop_all in Hres, Hev. simpl in Hres, Hev. rewrite app_nil_r in Hev.
  exists (pre ++ [EvCallback v]).
  unfold ran, handled, in_order. rewrite Hres, (is_null_false _ Hv), Hev.
  rewrite callbacks_app, processor_calls_app, Hcb. simpl.
  rewrite app_nil_r. repeat split; [done|].
  intros j Hj. destruct (Hargs j Hj) as (b & Hb & Hlook). by exists b.
Qed.

(** The run up to processor [i], which is fed [a]. *)
Lemma loop_reaches ps m s i p a :
  ps !! i = Some p ->
  passes ps m s i ->
  compose (take i ps) m s = Normal a ->
  loop_result ps m s = loop_result (p :: drop (S i) ps) a s /\
  exists pre,
    loop_events 0 ps m m s = pre ++ loop_events i (p :: drop (S i) ps) m a s /\
    callbacks pre = [] /\
    in_order pre ps m s i.
Proof.
  intros Hp Hpass Hrun.
  pose proof (lookup_lt_Some _ _ _ Hp) as Hlt.
  destruct (loop_prefix ps i 0 m m s a) as (Hres & pre & Hev & Hrest); [lia|done|done|].
  rewrite (drop_S _ _ _ Hp) in Hres, Hev. split; [done|]. by exists pre.
Qed.

Lemma in_order_snoc pre i a s' (tl : list Event) m ps s :
  processor_calls tl = [] ->
  compose (take i ps) m s = Normal a ->
  in_order pre ps m s i ->
  in_order (pre ++ EvProcessor i a s' :: tl) ps m s (S i).
Proof.
  intros Htl Hrun [Hidx Hargs].
  assert (length (processor_calls pre) = i) as Hlen.
  { rewrite <- (length_fmap fst), Hidx. apply length_seq. }
  unfold in_order.
  rewrite processor_calls_app. cbn [processor_calls]. rewrite Htl. split.
  - rewrite fmap_app, Hidx. by rewrite seq_S.
  - intros j Hj. destruct (decide (j = i)) as [->|Hne].
    + exists a. split; [done|].
      rewrite lookup_app_r by lia. by rewrite Hlen, Nat.sub_diag.
    + destruct (Hargs j ltac:(lia)) as (b & Hb & Hlook). exists b. split; [done|].
      by rewrite lookup_app_l by lia.
Qed.

Lemma handled_filtered ps m s cb w i p a :
  ps !! i = Some p ->
  passes ps m s i ->
  compose (take i ps) m s = Normal a ->
  p a s = Normal VNull ->
  stops_at (handled ps m s cb w) w ps m s i (Normal tt).
Proof.
  intros Hp Hpass Hrun Hnull.
  destruct (loop_reaches ps m s i p a Hp Hpass Hrun) as (Hres & pre & Hev & Hcb & Hord).
  simpl in Hres, Hev. rewrite Hnull in Hres, Hev. simpl in Hres, Hev.
  exists (pre ++ [EvProcessor i a s; EvLog m]).
  unfold ran, handled. rewrite Hres, Hev. simpl.
  split; [done|]. split.
  - rewrite callbacks_app, Hcb. done.
  - by apply in_order_snoc.
Qed.

Lemma handled_thrown ps m s cb w i p a e :
  ps !! i = Some p ->
  passes ps m s i ->
  compose (take i ps) m s = Normal a ->
  p a s = Throw e ->
  stops_at (handled ps m s cb w) w ps m s i (Throw e).
Proof.
  intros Hp Hpass Hrun Hthrow.
  destruct (loop_reaches ps m s i p a Hp Hpass Hrun) as (Hres & pre & Hev & Hcb & Hord).
  simpl in Hres, Hev. rewrite Hthrow in Hres, Hev.
  exists (pre ++ [EvProcessor i a s]).
  unfold ran, handled. rewrite Hres, Hev.
  split; [done|]. split.
  - rewrite callbacks_app, Hcb. done.
  - by apply in_order_snoc.
Qed.

(** Handling a message reads the processors and the external state only;
    it changes neither the receiver nor the heap. *)
Lemma handled_frame {T'} ps m s cb w (w' : World T') :
  ext w = ext w' ->
  exists c e evs,
    ran (handled ps m s cb w) w c e evs /\
    ran (handled ps m s cb w') w' c e evs.
Proof.
  intros Hext. unfold ran, handled. rewrite Hext.
  destruct (loop_result ps m s) as [v|e]; [destruct (is_null v)|]; eauto.
Qed.

End HandledFacts.

(** ** The message handler *)

(** C1.  For every processor chain [ps], message [m] (a value other than the
    sentinel [null]), session and delivery callback, in both classes: if no
    processor returns [null] (and none throws), the handler calls the
    processors 0..n-1 in the configured order, each on the result of the one
    before, and then calls the callback exactly once, on
    [pn(...(p2(p1(m))))]; if processor [i] is the first to return [null], the
    handler calls the processors 0..i only, never calls the callback, and
    returns normally. *)
Theorem handleMessage_delivers_or_filters `{Collaborators}
    (ps : list MessageProcessor) (m : any) (s : loc) (cb : EventHandler)
    (wm : World SessionManager.t) (wp : World MessagePipeline.t) :
  SessionManager._messageProcessors (this wm) = ps ->
  MessagePipeline._messageProcessors (this wp) = ps ->
  (forall v,
     m <> VNull ->
     passes ps m s (length ps) ->
     compose ps m s = Normal v ->
     delivers_once (SessionManager._handleMessage m s cb wm) wm ps m s cb v /\
     delivers_once (MessagePipeline._handleMessage m s cb wp) wp ps m s cb v)
  /\
  (forall i p a,
     ps !! i = Some p ->
     passes ps m s i ->
     compose (take i ps) m s = Normal a ->
     p a s = Normal VNull ->
     stops_at (SessionManager._handleMessage m s cb wm) wm ps m s i (Normal tt) /\
     stops_at (MessagePipeline._handleMessage m s cb wp) wp ps m s i (Normal tt)).
Proof.
  intros Hm Hp. split.
  - intros v Hnn Hpass Hrun.
    rewrite SessionManager_handleMessage_spec, MessagePipeline_handleMessage_spec, Hm, Hp.
    split; by apply handled_delivered.
  - intros i p a Hi Hpass Hrun Hnull.
    rewrite SessionManager_handleMessage_spec, MessagePipeline_handleMessage_spec, Hm, Hp.
    split; by apply handled_filtered with p a.
Qed.

Lemma handleMessage_delivers_or_filters_witness :
  delivers_once
    (SessionManager._handleMessage (VStr "exec") 1%positive Demo.deliver
       (Demo.manager0 [Demo.upper; Demo.upper]))
    (Demo.manager0 [Demo.upper; Demo.upper])
    [Demo.upper; Demo.upper] (VStr "exec") 1%positive Demo.deliver (VStr "EXEC")
  /\
  stops_at
    (MessagePipeline._handleMessage (VStr "exec") 1%positive Demo.deliver
       (Demo.pipeline0 [Demo.upper; Demo.veto; Demo.broken]))
    (Demo.pipeline0 [Demo.upper; Demo.veto; Demo.broken])
    [Demo.upper; Demo.veto; Demo.broken] (VStr "exec") 1%positive 1 (Normal tt).
Proof.
  split.
  - apply (handleMessage_delivers_or_filters [Demo.upper; Demo.upper] (VStr "exec")
             1%positive Demo.deliver
             (Demo.manager0 [Demo.upper; Demo.upper])
             (Demo.pipeline0 [Demo.upper; Demo.upper]) eq_refl eq_refl).
    + discriminate.
    + intros [|[|j]] Hj; [vm_compute; discriminate .. | simpl in Hj; lia].
    + reflexivity.
  - apply (handleMessage_delivers_or_filters [Demo.upper; Demo.veto; Demo.broken]
             (VStr "exec") 1%positive Demo.deliver
             (Demo.manager0 [Demo.upper; Demo.veto; Demo.broken])
             (Demo.pipeline0 [Demo.upper; Demo.veto; Demo.broken]) eq_refl eq_refl)
      with (p := Demo.veto) (a := VStr "EXEC").
    + reflexivity.
    + intros [|j] Hj; [vm_compute; discriminate | lia].
    + reflexivity.
    + reflexivity.
Defined.

(** C7.  In both classes, if processor [i] throws while the chain runs on
    [m], the handler calls the processors 0..i only, never calls the
    callback, and completes with the thrown error, which thus reaches its
    caller; the receiver, the heap and the external state are as before, so
    that any next message is handled from the world after the failure exactly
    as it would have been from the world before it. *)
Theorem handleMessage_aborts_on_error `{Collaborators}
    (ps : list MessageProcessor) (m : any) (s : loc) (cb : EventHandler)
    (wm : World SessionManager.t) (wp : World MessagePipeline.t)
    (i : nat) (p : MessageProcessor) (a : any) (e : Error) :
  SessionManager._messageProcessors (this wm) = ps ->
  MessagePipeline._messageProcessors (this wp) = ps ->
  ps !! i = Some p ->
  passes ps m s i ->
  compose (take i ps) m s = Normal a ->
  p a s = Throw e ->
  (stops_at (SessionManager._handleMessage m s cb wm) wm ps m s i (Throw e) /\
   forall m2 s2 cb2, exists c e2 evs,
     ran (SessionManager._handleMessage m2 s2 cb2
            (snd (SessionManager._handleMessage m s cb wm)))
         (snd (SessionManager._handleMessage m s cb wm)) c e2 evs /\
     ran (SessionManager._handleMessage m2 s2 cb2 wm) wm c e2 evs)
  /\
  (stops_at (MessagePipeline._handleMessage m s cb wp) wp ps m s i (Throw e) /\
   forall m2 s2 cb2, exists c e2 evs,
     ran (MessagePipeline._handleMessage m2 s2 cb2
            (snd (MessagePipeline._handleMessage m s cb wp)))
         (snd (MessagePipeline._handleMessage m s cb wp)) c e2 evs /\
     ran (MessagePipeline._handleMessage m2 s2 cb2 wp) wp c e2 evs).
Proof.
  intros Hm Hp Hi Hpass Hrun Hthrow.
  pose proof (handled_thrown ps m s cb wm i p a e Hi Hpass Hrun Hthrow) as Hsm.
  pose proof (handled_thrown ps m s cb wp i p a e Hi Hpass Hrun Hthrow) as Hmp.
  split.
  - rewrite !SessionManager_handleMessage_spec, Hm. split; [done|].
    intros m2 s2 cb2. rewrite !SessionManager_handleMessage_spec.
    destruct Hsm as (evs & -> & _). simpl. rewrite Hm.
    by apply handled_frame.
  - rewrite !MessagePipeline_handleMessage_spec, Hp. split; [done|].
    intros m2 s2 cb2. rewrite !MessagePipeline_handleMessage_spec.
    destruct Hmp as (evs & -> & _). simpl. rewrite Hp.
    by apply handled_frame.
Qed.

Lemma handleMessage_aborts_on_error_witness :
  stops_at
    (SessionManager._handleMessage (VStr "exec") 1%positive Demo.deliver
       (Demo.manager0 [Demo.upper; Demo.broken; Demo.upper]))
    (Demo.manager0 [Demo.upper; Demo.broken; Demo.upper])
    [Demo.upper; Demo.broken; Demo.upper] (VStr "exec") 1%positive 1
    (Throw "processor failed").
Proof.
  apply (handleMessage_aborts_on_error [Demo.upper; Demo.broken; Demo.upper]
           (VStr "exec") 1%positive Demo.deliver
           (Demo.manager0 [Demo.upper; Demo.broken; Demo.upper])
           (Demo.pipeline0 [Demo.upper; Demo.broken; Demo.upper])
           1 Demo.broken (VStr "EXEC") "processor failed" eq_refl eq_refl).
  - reflexivity.
  - intros [|j] Hj; [vm_compute; discriminate | lia].
  - reflexivity.
  - reflexivity.
Defined.

(** C10.  The message handlers of the two classes are extensionally equal:
    from worlds with the same processor chain and the same external state,
    for every message, session and callback, they complete alike, make the
    same calls in the same order with the same arguments (processors, log and
    callback), leave the external state alike, and neither changes its
    receiver or the heap. *)
Theorem handleMessage_variants_agree `{Collaborators}
    (m : any) (s : loc) (cb : EventHandler)
    (wm : World SessionManager.t) (wp : World MessagePipeline.t) :
  SessionManager._messageProcessors (this wm) = MessagePipeline._messageProcessors (this wp) ->
  ext wm = ext wp ->
  exists c e evs,
    ran (SessionManager._handleMessage m s cb wm) wm c e evs /\
    ran (MessagePipeline._handleMessage m s cb wp) wp c e evs.
Proof.
  intros Hps Hext.
  rewrite SessionManager_handleMessage_spec, MessagePipeline_handleMessage_spec, Hps.
  by apply handled_frame.
Qed.

Lemma handleMessage_variants_agree_witness :
  exists c e evs,
    ran (SessionManager._handleMessage (VStr "exec") 1%positive Demo.deliver
           (Demo.manager0 [Demo.upper; Demo.veto]))
        (Demo.manager0 [Demo.upper; Demo.veto]) c e evs /\
    ran (MessagePipeline._handleMessage (VStr "exec") 1%positive Demo.deliver
           (Demo.pipeline0 [Demo.upper; Demo.veto]))
        (Demo.pipeline0 [Demo.upper; Demo.veto]) c e evs.
Proof.
  apply handleMessage_variants_agree; reflexivity.
Defined.

(** ** Connection events *)

Section ConnectFacts.
Context `{Collaborators}.

Lemma dom_insert_fresh (h : gmap loc Session) l s :
  l ∉ dom h -> dom (<[l := s]> h) ∖ dom h = {[l]}.
Proof.
  intros Hl. rewrite dom_insert_L. apply set_eq. intros x.
  rewrite elem_of_difference, elem_of_union, elem_of_singleton.
  split; [tauto|]. intros ->. tauto.
Qed.

Lemma created_insert {T} (w w' : World T) l s :
  l ∉ dom (heap w) -> heap w' = <[l := s]> (heap w) -> created w w' = {[l]}.
Proof. intros Hl Hheap. unfold created. rewrite Hheap. by apply dom_insert_fresh. Qed.

Lemma SessionManager_createSession_cases k c (w : World SessionManager.t) r w1 :
  SessionManager._createSession k c w = (r, w1) ->
  this w1 = this w /\ trace w1 = trace w /\
  ((exists kern nb,
      r = Normal (fresh (dom (heap w))) /\
      heap w1 = <[fresh (dom (heap w)) := new_Session k c kern nb bound_handleMessage]> (heap w))
   \/ (exists e, r = Throw e /\ heap w1 = heap w)).
Proof.
  unfold SessionManager._createSession, bind, call, get_this, alloc. simpl.
  intros Hrun. repeat (case_match; simplify_eq/=); eauto 10.
Qed.

Lemma MessagePipeline_createSession_cases k c (w : World MessagePipeline.t) r w1 :
  MessagePipeline._createSession k c w = (r, w1) ->
  this w1 = this w /\ trace w1 = trace w /\
  ((exists kern nb,
      r = Normal (fresh (dom (heap w))) /\
      heap w1 = <[fresh (dom (heap w)) := new_Session k c kern nb bound_handleMessage]> (heap w))
   \/ (exists e, r = Throw e /\ heap w1 = heap w)).
Proof.
  unfold MessagePipeline._createSession, MessagePipeline._createBlankNotebook,
    MessagePipeline._appendMarkdownCell, MessagePipeline._appendCodeCell,
    bind, call, call_total, get_this, alloc, ret. simpl.
  intros Hrun. repeat (case_match; simplify_eq/=); eauto 10.
Qed.

Lemma SessionManager_connect_existing c (w : World SessionManager.t) l s :
  SessionManager._idToSession (this w) !! getSessionId c = Some l ->
  heap w !! l = Some s ->
  SessionManager._handleUserConnect c w =
    (Normal tt, {| this := this w; heap := <[l := updateUserConnection s c]> (heap w);
                   ext := ext w; trace := trace w |}).
Proof.
  intros Hk Hl. unfold SessionManager._handleUserConnect, get_property, bind, get_this. simpl.
  rewrite Hk. unfold update_object. by rewrite Hl.
Qed.

Lemma MessagePipeline_connect_existing c (w : World MessagePipeline.t) l s :
  MessagePipeline._idToSession (this w) !! getSessionId c = Some l ->
  heap w !! l = Some s ->
  MessagePipeline._handleUserConnect c w =
    (Normal tt, {| this := this w; heap := <[l := updateUserConnection s c]> (heap w);
                   ext := ext w; trace := trace w |}).
Proof.
  intros Hk Hl. unfold MessagePipeline._handleUserConnect, get_property, bind, get_this. simpl.
  rewrite Hk. unfold update_object. by rewrite Hl.
Qed.

Lemma SessionManager_connect_new c (w : World SessionManager.t) r w' :
  SessionManager._idToSession (this w) !! getSessionId c = None ->
  SessionManager._handleUserConnect c w = (r, w') ->
  (exists l s,
     r = Normal tt /\ (l ∉ dom (heap w)) /\ heap w' = <[l := s]> (heap w) /\
     session_id s = getSessionId c /\
     SessionManager._idToSession (this w') =
       <[getSessionId c := l]> (SessionManager._idToSession (this w)))
  \/ (exists e, r = Throw e /\ this w' = this w /\ heap w' = heap w).
Proof.
  intros Hk. unfold SessionManager._handleUserConnect, get_property, bind, get_this. simpl.
  rewrite Hk.
  destruct (inherited (getSessionId c)); [intros [= <- <-]; right; by eauto|].
  destruct (SessionManager._createSession _ c w) as [[l|e] w1] eqn:Hcreate;
    destruct (SessionManager_createSession_cases _ _ _ _ _ Hcreate)
      as (Hthis & _ & [(kern & nb & Hr & Hheap)|(e' & Hr & Hheap)]);
    simplify_eq/=; intros [= <- <-]; simpl.
  - left. eexists _, _. repeat split; [apply is_fresh | exact Hheap | done | by rewrite Hthis].
  - right. eauto.
Qed.

Lemma MessagePipeline_connect_new c (w : World MessagePipeline.t) r w' :
  MessagePipeline._idToSession (this w) !! getSessionId c = None ->
  MessagePipeline._handleUserConnect c w = (r, w') ->
  (exists l s,
     r = Normal tt /\ (l ∉ dom (heap w)) /\ heap w' = <[l := s]> (heap w) /\
     session_id s = getSessionId c /\
     MessagePipeline._idToSession (this w') =
       <[getSessionId c := l]> (MessagePipeline._idToSession (this w)))
  \/ (exists e, r = Throw e /\ this w' = this w /\ heap w' = heap w).
Proof.
  intros Hk. unfold MessagePipeline._handleUserConnect, get_property, bind, get_this. simpl.
  rewrite Hk.
  destruct (inherited (getSessionId c)); [intros [= <- <-]; right; by eauto|].
  destruct (MessagePipeline._createSession _ c w) as [[l|e] w1] eqn:Hcreate;
    destruct (MessagePipeline_createSession_cases _ _ _ _ _ Hcreate)
      as (Hthis & _ & [(kern & nb & Hr & Hheap)|(e' & Hr & Hheap)]);
    simplify_eq/=; intros [= <- <-]; simpl.
  - left. eexists _, _. repeat split; [apply is_fresh | exact Hheap | done | by rewrite Hthis].
  - right. eauto.
Qed.

End ConnectFacts.

(** A first connection, computed: the manager ends up with exactly the
    session of [Demo.attached]. *)
Example connect_alice :
  SessionManager._handleUserConnect Demo.alice (Demo.manager0 []) = (Normal tt, Demo.attached).
Proof. vm_compute. reflexivity. Qed.

(** A first connection under an ordinary key, step by step: the result is
    determined by the collaborators, not by the connection. *)
Lemma SessionManager_connect_creates `{Collaborators}
    (w : World SessionManager.t) (c : IUserConnection)
    (p1 p2 : N) (x1 x2 x3 x4 : Ext) (kern : IKernel) (nb : IActiveNotebook) :
  SessionManager._idToSession (this w) !! getSessionId c = None ->
  inherited (getSessionId c) = false ->
  getAvailablePort (ext w) = (Normal p1, x1) ->
  getAvailablePort x1 = (Normal p2, x2) ->
  kernelManager_create {| iopubPort := p1; shellPort := p2 |} x2 = (Normal kern, x3) ->
  ActiveNotebook_open SessionManager.__temp_notebook_path
    (SessionManager._storage (this w)) x3 = (Normal nb, x4) ->
  SessionManager._handleUserConnect c w =
    (Normal tt,
     {| this := {| SessionManager._idToSession :=
                     <[getSessionId c := fresh (dom (heap w))]>
                       (SessionManager._idToSession (this w));
                   SessionManager._messageProcessors :=
                     SessionManager._messageProcessors (this w);
                   SessionManager._storage := SessionManager._storage (this w) |};
        heap := <[fresh (dom (heap w)) :=
                    new_Session (getSessionId c) c kern nb bound_handleMessage]> (heap w);
        ext := x4;
        trace := trace w |}).
Proof.
  intros Hk Hkey Hp1 Hp2 Hkern Hnb.
  unfold SessionManager._handleUserConnect, SessionManager._createSession, get_property,
    bind, call, get_this, set_this, alloc. simpl.
  rewrite Hk, Hkey, Hp1. simpl. rewrite Hp2. simpl. rewrite Hkern. simpl. rewrite Hnb.
  reflexivity.
Qed.

(** C2, the divergence.  In both classes a key that names a member of
    Object.prototype is found in the registry although no session was ever
    registered under it: the handler takes the reconnect branch and throws a
    TypeError; no collaborator is called, no Session is constructed, nothing
    is registered. *)
Theorem handleUserConnect_inherited_key `{Collaborators}
    (c : IUserConnection)
    (wm : World SessionManager.t) (wp : World MessagePipeline.t) :
  inherited (getSessionId c) = true ->
  SessionManager._idToSession (this wm) !! getSessionId c = None ->
  MessagePipeline._idToSession (this wp) !! getSessionId c = None ->
  SessionManager._handleUserConnect c wm =
    (Throw "TypeError: session.updateUserConnection is not a function", wm) /\
  MessagePipeline._handleUserConnect c wp =
    (Throw "TypeError: session.updateUserConnection is not a function", wp).
Proof.
  intros Hkey Hm Hp.
  unfold SessionManager._handleUserConnect, MessagePipeline._handleUserConnect,
    get_property, bind, get_this. simpl.
  by rewrite Hm, Hp, Hkey.
Qed.

Lemma handleUserConnect_inherited_key_witness :
  SessionManager._handleUserConnect Corner.mallory (Demo.manager0 []) =
    (Throw "TypeError: session.updateUserConnection is not a function", Demo.manager0 []) /\
  MessagePipeline._handleUserConnect Corner.mallory (Demo.pipeline0 []) =
    (Throw "TypeError: session.updateUserConnection is not a function", Demo.pipeline0 []).
Proof.
  apply (handleUserConnect_inherited_key Corner.mallory (Demo.manager0 [])
           (Demo.pipeline0 [])); reflexivity.
Defined.

(** X14.  When the registry has no entry for the key [k] of the connection,
    [k] names no member of Object.prototype and the collaborators succeed,
    one connect event allocates exactly one session object: the Session made
    of [k], the connection, the kernel created with the two ports allocated
    just before (iopub first, shell second), the notebook and the manager's
    own bound handler; the registry gains the entry for [k], so that looking
    [k] up finds that Session. *)
Theorem handleUserConnect_registers_new_session `{Collaborators}
    (w : World SessionManager.t) (c : IUserConnection) (k : string)
    (p1 p2 : N) (x1 x2 x3 x4 : Ext) (kern : IKernel) (nb : IActiveNotebook) :
  getSessionId c = k ->
  SessionManager._idToSession (this w) !! k = None ->
  inherited k = false ->
  getAvailablePort (ext w) = (Normal p1, x1) ->
  getAvailablePort x1 = (Normal p2, x2) ->
  kernelManager_create {| iopubPort := p1; shellPort := p2 |} x2 = (Normal kern, x3) ->
  ActiveNotebook_open SessionManager.__temp_notebook_path
    (SessionManager._storage (this w)) x3 = (Normal nb, x4) ->
  exists l w',
    SessionManager._handleUserConnect c w = (Normal tt, w') /\
    (l ∉ dom (heap w)) /\
    heap w' = <[l := new_Session k c kern nb bound_handleMessage]> (heap w) /\
    created w w' = {[l]} /\
    SessionManager._idToSession (this w') = <[k := l]> (SessionManager._idToSession (this w)) /\
    SessionManager._idToSession (this w') !! k = Some l /\
    heap w' !! l = Some (new_Session k c kern nb bound_handleMessage) /\
    SessionManager._messageProcessors (this w') = SessionManager._messageProcessors (this w) /\
    SessionManager._storage (this w') = SessionManager._storage (this w) /\
    ext w' = x4 /\
    trace w' = trace w.
Proof.
  intros <- Hk Hkey Hp1 Hp2 Hkern Hnb.
  exists (fresh (dom (heap w))). eexists.
  split; [by apply (SessionManager_connect_creates w c p1 p2 x1 x2 x3 x4 kern nb)|].
  simpl.
  pose proof (is_fresh (dom (heap w))) as Hfresh.
  split; [exact Hfresh|]. split; [reflexivity|]. split.
  { by eapply created_insert. }
  split; [reflexivity|]. split; [apply lookup_insert_eq|].
  split; [apply lookup_insert_eq|]. repeat split.
Qed.

Lemma handleUserConnect_registers_new_session_witness :
  exists l w',
    SessionManager._handleUserConnect Demo.alice (Demo.manager0 []) = (Normal tt, w') /\
    created (Demo.manager0 []) w' = {[l]} /\
    SessionManager._idToSession (this w') !! "abc" = Some l /\
    heap w' !! l = Some Demo.manager_session.
Proof.
  destruct (handleUserConnect_registers_new_session (Demo.manager0 []) Demo.alice "abc"
              8000 8001 1 2 2 2 Demo.kernel0 Demo.stored_notebook
              eq_refl eq_refl eq_refl eq_refl eq_refl eq_refl eq_refl)
    as (l & w' & Hrun & _ & _ & Hcreated & _ & Hk & Hl & _).
  exists l, w'. repeat split; assumption.
Defined.

(** C3.  In both classes, when the registry binds the key [k] of the
    connection to a session object, a connect event does nothing but update
    that object with the new connection: the object keeps its kernel, its
    notebook, its key and its handler, the receiver (hence the registry: no
    entry added, removed or replaced) and the external state are unchanged,
    and no collaborator is called. *)
Theorem handleUserConnect_reattaches `{Collaborators}
    (c : IUserConnection) (k : string)
    (wm : World SessionManager.t) (lm : loc) (sm : Session)
    (wp : World MessagePipeline.t) (lp : loc) (sp : Session) :
  getSessionId c = k ->
  SessionManager._idToSession (this wm) !! k = Some lm ->
  heap wm !! lm = Some sm ->
  MessagePipeline._idToSession (this wp) !! k = Some lp ->
  heap wp !! lp = Some sp ->
  reattaches (SessionManager._handleUserConnect c wm) wm lm sm c /\
  reattaches (MessagePipeline._handleUserConnect c wp) wp lp sp c.
Proof.
  intros <- Hkm Hlm Hkp Hlp. split.
  - exists (updateUserConnection sm c).
    by rewrite (SessionManager_connect_existing c wm lm sm Hkm Hlm).
  - exists (updateUserConnection sp c).
    by rewrite (MessagePipeline_connect_existing c wp lp sp Hkp Hlp).
Qed.

Lemma handleUserConnect_reattaches_witness :
  reattaches (SessionManager._handleUserConnect Demo.alice' Demo.attached) Demo.attached
    1%positive Demo.manager_session Demo.alice'.
Proof.
  apply (handleUserConnect_reattaches Demo.alice' "abc"
           Demo.attached 1%positive Demo.manager_session
           (snd (MessagePipeline._handleUserConnect Demo.alice (Demo.pipeline0 [])))
           1%positive Demo.pipeline_session);
    vm_compute; reflexivity.
Defined.

(** C4.  When the registry has no entry for the key of the connection and the
    allocation of a port, the creation of the kernel or the construction of
    the notebook throws, the connect handler throws, so that the failure
    reaches the caller of the connect event, and neither the receiver (hence
    the registry) nor the heap has changed: no Session is registered.  For a
    key that names no member of Object.prototype the error is the failing
    collaborator's and the external state is the one that call left; for a
    key that does, the handler throws before any collaborator is called. *)
Theorem handleUserConnect_binding_failure `{Collaborators}
    (w : World SessionManager.t) (c : IUserConnection) (e : Error) (x' : Ext) :
  SessionManager._idToSession (this w) !! getSessionId c = None ->
  binding_failure (SessionManager._storage (this w)) (ext w) e x' ->
  if inherited (getSessionId c)
  then exists e', ran (SessionManager._handleUserConnect c w) w (Throw e') (ext w) []
  else ran (SessionManager._handleUserConnect c w) w (Throw e) x' [].
Proof.
  intros Hk Hfail.
  unfold ran, SessionManager._handleUserConnect, SessionManager._createSession,
    get_property, bind, call, get_this, set_this, alloc, throw. simpl.
  rewrite Hk, app_nil_r.
  destruct (inherited (getSessionId c)).
  { eexists. by destruct w. }
  destruct Hfail as [Hp1|p1 x1 Hp1 Hp2|p1 x1 p2 x2 Hp1 Hp2 Hkern
                     |p1 x1 p2 x2 kern x3 Hp1 Hp2 Hkern Hnb].
  - by rewrite Hp1.
  - rewrite Hp1. simpl. by rewrite Hp2.
  - rewrite Hp1. simpl. rewrite Hp2. simpl. by rewrite Hkern.
  - rewrite Hp1. simpl. rewrite Hp2. simpl. rewrite Hkern. simpl. by rewrite Hnb.
Qed.

Lemma handleUserConnect_binding_failure_witness :
  @ran Demo.exhausted _ _
    (@SessionManager._handleUserConnect Demo.exhausted Demo.alice Demo.exhausted_manager0)
    Demo.exhausted_manager0 (Throw "no kernel available") 2 [].
Proof.
  apply (@handleUserConnect_binding_failure Demo.exhausted Demo.exhausted_manager0
           Demo.alice "no kernel available" 2).
  - reflexivity.
  - apply (@kernel_creation_fails Demo.exhausted tt 0 "no kernel available" 2
             8000%N 1 8001%N 2); reflexivity.
Defined.

(** C8, as stated, fails: after [alice] has connected and then disconnected,
    her session still holds her connection, so it is not DETACHED. *)
Lemma handleUserDisconnect_does_not_detach :
  ~ detaches SessionManager._idToSession SessionManager._handleUserDisconnect
      Demo.attached Demo.alice.
Proof.
  intros Hdetach.
  destruct (Hdetach 1%positive Demo.manager_session eq_refl eq_refl eq_refl)
    as (s' & _ & Hs' & Hstate & _).
  vm_compute in Hs'. injection Hs' as <-. discriminate Hstate.
Qed.

(** C8, amended.  In both classes a disconnect event returns normally and
    changes nothing at all: every registered Session keeps its connection
    reference (it stays ATTACHED), its kernel, its notebook and its registry
    entry, and the external state is untouched. *)
Theorem handleUserDisconnect_changes_nothing `{Collaborators}
    (c : IUserConnection) (wm : World SessionManager.t) (wp : World MessagePipeline.t) :
  SessionManager._handleUserDisconnect c wm = (Normal tt, wm) /\
  MessagePipeline._handleUserDisconnect c wp = (Normal tt, wp).
Proof. split; reflexivity. Qed.

(** ** Connection events pending together *)

Lemma pick_of_two {A} (before after : list A) ev a b :
  before ++ ev :: after = [a; b] ->
  (before = [] /\ ev = a /\ after = [b]) \/ (before = [a] /\ ev = b /\ after = []).
Proof.
  destruct before as [|b0 [|b1 [|b2 before]]]; simpl; intros Heq; simplify_eq; auto.
Qed.

Lemma pick_of_one {A} (before after : list A) ev a :
  before ++ ev :: after = [a] -> before = [] /\ ev = a /\ after = [].
Proof.
  destruct before as [|b0 [|b1 before]]; simpl; intros Heq; simplify_eq; auto.
Qed.

Section Registry.
Context `{Collaborators} {T : Type}.
Variable registry : T -> gmap string loc.
Variable handlers : ConnectionEvent -> M T unit.

Hypothesis connect_existing : forall c (w : World T) l s,
  registry (this w) !! getSessionId c = Some l ->
  heap w !! l = Some s ->
  handlers (Connect c) w =
    (Normal tt, {| this := this w; heap := <[l := updateUserConnection s c]> (heap w);
                   ext := ext w; trace := trace w |}).

Hypothesis connect_new : forall c (w : World T) r w',
  registry (this w) !! getSessionId c = None ->
  handlers (Connect c) w = (r, w') ->
  (exists l s,
     r = Normal tt /\ (l ∉ dom (heap w)) /\ heap w' = <[l := s]> (heap w) /\
     session_id s = getSessionId c /\
     registry (this w') = <[getSessionId c := l]> (registry (this w)))
  \/ (exists e, r = Throw e /\ this w' = this w /\ heap w' = heap w).

Lemma one_session_created k (w w' : World T) l s :
  l ∉ dom (heap w) ->
  heap w' = <[l := s]> (heap w) ->
  session_id s = k ->
  registry (this w') = <[k := l]> (registry (this w)) ->
  one_session_for registry k w w'.
Proof.
  intros Hl Hheap Hid Hreg. exists l, s.
  split; [done|]. split; [by eapply created_insert|]. split; [done|].
  split; [by rewrite Hheap, lookup_insert_eq|]. split; [done|].
  intros l' Hne. by rewrite Hheap, lookup_insert_ne.
Qed.

(** A connect event keeps the registry sound: the reference it follows on a
    reconnect is never dangling. *)
Lemma connect_keeps_registry_sound c (w : World T) r w' :
  registry_sound registry w ->
  handlers (Connect c) w = (r, w') ->
  registry_sound registry w'.
Proof.
  intros Hsound Hrun.
  destruct (registry (this w) !! getSessionId c) as [l|] eqn:Hk.
  - destruct (Hsound _ _ Hk) as (s & Hl & Hid).
    rewrite (connect_existing c w l s Hk Hl) in Hrun. injection Hrun as <- <-.
    intros k' l' Hk'. simpl in *.
    destruct (Hsound _ _ Hk') as (s' & Hl' & Hid').
    destruct (decide (l' = l)) as [->|Hne].
    + exists (updateUserConnection s c). rewrite lookup_insert_eq. split; [done|].
      simpl. congruence.
    + exists s'. by rewrite lookup_insert_ne.
  - destruct (connect_new c w r w' Hk Hrun)
      as [(l & s & -> & Hl & Hheap & Hid & Hreg) | (e & -> & Hthis & Hheap)].
    + intros k' l'. rewrite Hreg, Hheap.
      destruct (decide (getSessionId c = k')) as [<-|Hne].
      * rewrite lookup_insert_eq. intros [= <-]. exists s. by rewrite lookup_insert_eq.
      * rewrite lookup_insert_ne by done. intros Hk'.
        destruct (Hsound _ _ Hk') as (s' & Hl' & Hid').
        exists s'. split; [|done]. rewrite lookup_insert_ne; [done|].
        intros ->. apply Hl. apply elem_of_dom. by exists s'.
    + intros k' l'. rewrite Hthis, Hheap. apply Hsound.
Qed.

(** Two connect events with the same new key, handled one after the other. *)
Lemma two_connects_in_a_row ca cb k (w : World T) r1 w1 r2 w2 :
  getSessionId ca = k ->
  getSessionId cb = k ->
  registry (this w) !! k = None ->
  handlers (Connect ca) w = (r1, w1) ->
  handlers (Connect cb) w1 = (r2, w2) ->
  one_session_for registry k w w2 \/
  nothing_registered [(Connect ca, r1); (Connect cb, r2)] w w2.
Proof.
  intros Hka Hkb Hk Hrun1 Hrun2.
  rewrite <- Hka in Hk.
  destruct (connect_new ca w r1 w1 Hk Hrun1)
    as [(l & s & -> & Hl & Hheap & Hid & Hreg) | (e & -> & Hthis & Hheap)].
  - (* the first event created the session: the second one re-attaches *)
    left.
    assert (registry (this w1) !! getSessionId cb = Some l) as Hk1.
    { by rewrite Hreg, Hkb, <- Hka, lookup_insert_eq. }
    assert (heap w1 !! l = Some s) as Hl1 by (by rewrite Hheap, lookup_insert_eq).
    rewrite (connect_existing cb w1 l s Hk1 Hl1) in Hrun2.
    injection Hrun2 as <- <-.
    apply one_session_created with l (updateUserConnection s cb); simpl.
    + done.
    + by rewrite Hheap, insert_insert_eq.
    + by rewrite <- Hka.
    + by rewrite Hreg, Hka.
  - (* the first event failed: the second one starts afresh *)
    assert (registry (this w1) !! getSessionId cb = None) as Hk1.
    { by rewrite Hthis, Hkb, <- Hka. }
    destruct (connect_new cb w1 r2 w2 Hk1 Hrun2)
      as [(l & s & -> & Hl & Hheap2 & Hid & Hreg) | (e2 & -> & Hthis2 & Hheap2)].
    + left. apply one_session_created with l s.
      * by rewrite <- Hheap.
      * by rewrite Hheap2, Hheap.
      * by rewrite Hid.
      * by rewrite Hreg, Hthis, Hkb.
    + right. split; [|split].
      * intros ev r. rewrite !elem_of_cons, elem_of_nil.
        intros [[= -> ->]|[[= -> ->]|[]]]; eauto.
      * by rewrite Hthis2.
      * by rewrite Hheap2.
Qed.

Lemma turn_inv st st' :
  turn handlers st st' ->
  exists before ev after r w',
    pending st = before ++ ev :: after /\
    handlers ev (world st) = (r, w') /\
    st' = {| pending := before ++ after; finished := finished st ++ [(ev, r)];
             world := w' |}.
Proof. intros [before ev after done w r w' Hrun]. simpl. eauto 10. Qed.

(** Whatever the order of dispatch, two pending events end up handled one
    after the other. *)
Lemma turns_of_two e1 e2 (w : World T) st' :
  turns handlers {| pending := [e1; e2]; finished := []; world := w |} st' ->
  pending st' = [] ->
  exists ea eb r1 w1 r2,
    ((ea = e1 /\ eb = e2) \/ (ea = e2 /\ eb = e1)) /\
    handlers ea w = (r1, w1) /\
    handlers eb w1 = (r2, world st') /\
    finished st' = [(ea, r1); (eb, r2)].
Proof.
  intros Hturns Hdone.
  inversion Hturns as [|? st1 ? Hturn1 Hturns1]; subst; [discriminate Hdone|].
  apply turn_inv in Hturn1 as (before & ea & after & r1 & w1 & Hpick & Hrun1 & ->).
  simpl in Hpick, Hrun1.
  assert (exists eb, before ++ after = [eb] /\
                     ((ea = e1 /\ eb = e2) \/ (ea = e2 /\ eb = e1))) as (eb & Hrest & Horder).
  { destruct (pick_of_two _ _ _ _ _ (eq_sym Hpick))
      as [(-> & -> & ->)|(-> & -> & ->)]; eauto. }
  simpl in Hturns1. rewrite Hrest in Hturns1.
  inversion Hturns1 as [|? st2 ? Hturn2 Hturns2]; subst; [discriminate Hdone|].
  apply turn_inv in Hturn2 as (before2 & eb' & after2 & r2 & w2 & Hpick2 & Hrun2 & ->).
  simpl in Hpick2, Hrun2.
  destruct (pick_of_one _ _ _ _ (eq_sym Hpick2)) as (-> & -> & ->).
  inversion Hturns2 as [|? st3 ? Hturn3 Hturns3]; subst.
  - simpl. exists ea, eb, r1, w1, r2. auto.
  - apply turn_inv in Hturn3 as (before3 & ? & after3 & ? & ? & Hpick3 & _).
    simpl in Hpick3. destruct before3; discriminate Hpick3.
Qed.

Lemma connects_in_any_order c1 c2 k (w : World T) st' :
  getSessionId c1 = k ->
  getSessionId c2 = k ->
  registry (this w) !! k = None ->
  turns handlers {| pending := [Connect c1; Connect c2]; finished := []; world := w |} st' ->
  pending st' = [] ->
  one_session_for registry k w (world st') \/
  nothing_registered (finished st') w (world st').
Proof.
  intros Hk1 Hk2 Hk Hturns Hdone.
  destruct (turns_of_two _ _ _ _ Hturns Hdone)
    as (ea & eb & r1 & w1 & r2 & Horder & Hrun1 & Hrun2 & ->).
  destruct Horder as [[-> ->]|[-> ->]].
  - by apply (two_connects_in_a_row c1 c2 k w r1 w1 r2).
  - by apply (two_connects_in_a_row c2 c1 k w r1 w1 r2).
Qed.

(** When the first of the two events to be dispatched is bound to succeed,
    both handlers return, one session is created and the second event calls
    no collaborator. *)
Lemma connects_in_any_order_succeed c1 c2 k (w : World T) st' (x : Ext) :
  getSessionId c1 = k ->
  getSessionId c2 = k ->
  registry (this w) !! k = None ->
  (forall c, getSessionId c = k ->
     exists w1, handlers (Connect c) w = (Normal tt, w1) /\ ext w1 = x) ->
  turns handlers {| pending := [Connect c1; Connect c2]; finished := []; world := w |} st' ->
  pending st' = [] ->
  one_session_for registry k w (world st') /\
  (forall ev r, (ev, r) ∈ finished st' -> r = Normal tt) /\
  ext (world st') = x.
Proof.
  intros Hk1 Hk2 Hk Hfirst Hturns Hdone.
  destruct (turns_of_two _ _ _ _ Hturns Hdone)
    as (ea & eb & r1 & w1 & r2 & Horder & Hrun1 & Hrun2 & ->).
  assert (exists ca cb, ea = Connect ca /\ eb = Connect cb /\
                        getSessionId ca = k /\ getSessionId cb = k)
    as (ca & cb & -> & -> & Hka & Hkb).
  { destruct Horder as [[-> ->]|[-> ->]]; eauto 10. }
  destruct (Hfirst ca Hka) as (w1' & Hrun1' & Hx).
  rewrite Hrun1 in Hrun1'. injection Hrun1' as -> ->.
  rewrite <- Hka in Hk.
  destruct (connect_new ca w _ w1' Hk Hrun1)
    as [(l & s & _ & Hl & Hheap & Hid & Hreg) | (e & [=] & _)].
  assert (registry (this w1') !! getSessionId cb = Some l) as Hk1'.
  { by rewrite Hreg, Hkb, <- Hka, lookup_insert_eq. }
  assert (heap w1' !! l = Some s) as Hl1 by (by rewrite Hheap, lookup_insert_eq).
  rewrite (connect_existing cb w1' l s Hk1' Hl1) in Hrun2.
  injection Hrun2 as <- <-. simpl.
  split; [|split; [|done]].
  - apply one_session_created with l (updateUserConnection s cb); simpl.
    + done.
    + by rewrite Hheap, insert_insert_eq.
    + by rewrite <- Hka.
    + by rewrite Hreg, Hka.
  - intros ev r. rewrite !elem_of_cons, elem_of_nil.
    intros [[= -> ->]|[[= -> ->]|[]]]; done.
Qed.

End Registry.

(** The registry of either class is sound from its construction on, whatever
    connection events are handled: the reconnect branch never meets a
    dangling reference. *)
Lemma registry_sound_initially `{Collaborators} storage ps x :
  registry_sound SessionManager._idToSession
    (initial_world (SessionManager.constructor storage ps) x) /\
  registry_sound MessagePipeline._idToSession
    (initial_world (MessagePipeline.constructor ps) x).
Proof. split; intros k l Hk; simpl in Hk; by rewrite lookup_empty in Hk. Qed.

Lemma registry_stays_sound `{Collaborators} (ev : ConnectionEvent) :
  (forall (w : World SessionManager.t) r w',
     registry_sound SessionManager._idToSession w ->
     SessionManager._registerHandlers ev w = (r, w') ->
     registry_sound SessionManager._idToSession w') /\
  (forall (w : World MessagePipeline.t) r w',
     registry_sound MessagePipeline._idToSession w ->
     MessagePipeline._registerHandlers ev w = (r, w') ->
     registry_sound MessagePipeline._idToSession w').
Proof.
  split; intros w r w' Hsound Hrun.
  - destruct ev as [c|c]; [|by injection Hrun as <- <-].
    apply (connect_keeps_registry_sound SessionManager._idToSession
             SessionManager._registerHandlers) with c w r; try done.
    + intros c0 w0 l s. apply SessionManager_connect_existing.
    + intros c0 w0 r0 w0'. apply SessionManager_connect_new.
  - destruct ev as [c|c]; [|by injection Hrun as <- <-].
    apply (connect_keeps_registry_sound MessagePipeline._idToSession
             MessagePipeline._registerHandlers) with c w r; try done.
    + intros c0 w0 l s. apply MessagePipeline_connect_existing.
    + intros c0 w0 r0 w0'. apply MessagePipeline_connect_new.
Qed.

Lemma both_handled_reachable {T} (handlers : ConnectionEvent -> M T unit) (w : World T) :
  turns handlers (Demo.both_pending w) (Demo.both_handled handlers w).
Proof.
  eapply turns_step.
  { apply (turn_dispatch handlers [Connect Demo.alice] (Connect Demo.alice') [] [] w
             _ _ (surjective_pairing _)). }
  eapply turns_step; [|apply turns_refl].
  apply (turn_dispatch handlers [] (Connect Demo.alice) []
           [(Connect Demo.alice', fst (handlers (Connect Demo.alice') w))]
           (snd (handlers (Connect Demo.alice') w)) _ _ (surjective_pairing _)).
Qed.

(** A key that names a member of Object.prototype and has no entry: the
    reconnect branch is taken and throws, the world is as before. *)
Lemma connect_inherited `{Collaborators} (c : IUserConnection)
    (wm : World SessionManager.t) (wp : World MessagePipeline.t) :
  inherited (getSessionId c) = true ->
  (SessionManager._idToSession (this wm) !! getSessionId c = None ->
   SessionManager._handleUserConnect c wm =
     (Throw "TypeError: session.updateUserConnection is not a function", wm)) /\
  (MessagePipeline._idToSession (this wp) !! getSessionId c = None ->
   MessagePipeline._handleUserConnect c wp =
     (Throw "TypeError: session.updateUserConnection is not a function", wp)).
Proof.
  intros Hkey.
  unfold SessionManager._handleUserConnect, MessagePipeline._handleUserConnect,
    get_property, bind, get_this. simpl.
  split; intros ->; by rewrite Hkey.
Qed.

(** C9, the divergence.  In both classes, two connect events pending together
    under a key that names a member of Object.prototype and has no entry:
    in whatever order they are dispatched both handlers throw and the world
    is as before, so that no Session at all is registered for the key. *)
Theorem concurrent_connects_inherited_key `{Collaborators}
    (c1 c2 : IUserConnection) (k : string)
    (wm : World SessionManager.t) (stm : LoopState)
    (wp : World MessagePipeline.t) (stp : LoopState) :
  getSessionId c1 = k ->
  getSessionId c2 = k ->
  inherited k = true ->
  SessionManager._idToSession (this wm) !! k = None ->
  turns SessionManager._registerHandlers
    {| pending := [Connect c1; Connect c2]; finished := []; world := wm |} stm ->
  pending stm = [] ->
  MessagePipeline._idToSession (this wp) !! k = None ->
  turns MessagePipeline._registerHandlers
    {| pending := [Connect c1; Connect c2]; finished := []; world := wp |} stp ->
  pending stp = [] ->
  (world stm = wm /\ forall ev r, (ev, r) ∈ finished stm -> exists e, r = Throw e) /\
  (world stp = wp /\ forall ev r, (ev, r) ∈ finished stp -> exists e, r = Throw e).
Proof.
  intros Hk1 Hk2 Hkey Hm Hturnsm Hdonem Hp Hturnsp Hdonep.
  assert (forall c, getSessionId c = k ->
            SessionManager._handleUserConnect c wm =
              (Throw "TypeError: session.updateUserConnection is not a function", wm) /\
            MessagePipeline._handleUserConnect c wp =
              (Throw "TypeError: session.updateUserConnection is not a function", wp))
    as Hthrow.
  { intros c Hc. destruct (connect_inherited c wm wp) as [H1 H2]; [by rewrite Hc|].
    rewrite Hc in H1, H2. split; auto. }
  split.
  - destruct (turns_of_two SessionManager._registerHandlers _ _ _ _ Hturnsm Hdonem)
      as (ea & eb & r1 & w1 & r2 & Horder & Hrun1 & Hrun2 & Hfin).
    assert (exists ca cb, ea = Connect ca /\ eb = Connect cb /\
                          getSessionId ca = k /\ getSessionId cb = k)
      as (ca & cb & -> & -> & Hca & Hcb).
    { destruct Horder as [[-> ->]|[-> ->]]; eauto 10. }
    simpl in Hrun1, Hrun2.
    rewrite (proj1 (Hthrow ca Hca)) in Hrun1. injection Hrun1 as <- <-.
    rewrite (proj1 (Hthrow cb Hcb)) in Hrun2. injection Hrun2 as <- Hw.
    split; [done|]. intros ev r. rewrite Hfin, !elem_of_cons, elem_of_nil.
    intros [[= -> ->]|[[= -> ->]|[]]]; eauto.
  - destruct (turns_of_two MessagePipeline._registerHandlers _ _ _ _ Hturnsp Hdonep)
      as (ea & eb & r1 & w1 & r2 & Horder & Hrun1 & Hrun2 & Hfin).
    assert (exists ca cb, ea = Connect ca /\ eb = Connect cb /\
                          getSessionId ca = k /\ getSessionId cb = k)
      as (ca & cb & -> & -> & Hca & Hcb).
    { destruct Horder as [[-> ->]|[-> ->]]; eauto 10. }
    simpl in Hrun1, Hrun2.
    rewrite (proj2 (Hthrow ca Hca)) in Hrun1. injection Hrun1 as <- <-.
    rewrite (proj2 (Hthrow cb Hcb)) in Hrun2. injection Hrun2 as <- Hw.
    split; [done|]. intros ev r. rewrite Hfin, !elem_of_cons, elem_of_nil.
    intros [[= -> ->]|[[= -> ->]|[]]]; eauto.
Qed.

Lemma mallory_handled_reachable {T} (handlers : ConnectionEvent -> M T unit) (w : World T) :
  turns handlers
    {| pending := [Connect Corner.mallory; Connect Corner.mallory'];
       finished := []; world := w |}
    (Corner.mallory_handled handlers w).
Proof.
  eapply turns_step.
  { apply (turn_dispatch handlers [] (Connect Corner.mallory) [Connect Corner.mallory'] [] w
             _ _ (surjective_pairing _)). }
  eapply turns_step; [|apply turns_refl].
  apply (turn_dispatch handlers [] (Connect Corner.mallory') []
           [(Connect Corner.mallory, fst (handlers (Connect Corner.mallory) w))]
           (snd (handlers (Connect Corner.mallory) w)) _ _ (surjective_pairing _)).
Qed.

Lemma concurrent_connects_inherited_key_witness :
  world (Corner.mallory_handled SessionManager._registerHandlers (Demo.manager0 [])) =
    Demo.manager0 [] /\
  world (Corner.mallory_handled MessagePipeline._registerHandlers (Demo.pipeline0 [])) =
    Demo.pipeline0 [].
Proof.
  destruct (concurrent_connects_inherited_key Corner.mallory Corner.mallory' "constructor"
              (Demo.manager0 [])
              (Corner.mallory_handled SessionManager._registerHandlers (Demo.manager0 []))
              (Demo.pipeline0 [])
              (Corner.mallory_handled MessagePipeline._registerHandlers (Demo.pipeline0 []))
              eq_refl eq_refl eq_refl)
    as [[Hm _] [Hp _]].
  - reflexivity.
  - apply mallory_handled_reachable.
  - reflexivity.
  - reflexivity.
  - apply mallory_handled_reachable.
  - reflexivity.
  - split; assumption.
Defined.

(** ** The blank notebook *)

Section NotebookFacts.
Context `{Collaborators}.
Implicit Types (d : Notebook) (w : World MessagePipeline.t).

Lemma ran_silently {A} w (c : completion A) x :
  ran (c, {| this := this w; heap := heap w; ext := x; trace := trace w |}) w c x [].
Proof. unfold ran. by rewrite app_nil_r. Qed.

(** An append whose generated id is already in the cell map changes nothing. *)
Lemma appendMarkdownCell_present d w i x' :
  uuid_v4 (ext w) = (i, x') ->
  is_Some (cells d !! i) ->
  ran (MessagePipeline._appendMarkdownCell d w) w (Normal d) x' [].
Proof.
  intros Hid [cell Hcell].
  unfold MessagePipeline._appendMarkdownCell, bind, call_total. rewrite Hid. simpl.
  rewrite Hcell. apply ran_silently.
Qed.

Lemma appendCodeCell_present d w i x' :
  uuid_v4 (ext w) = (i, x') ->
  is_Some (cells d !! i) ->
  ran (MessagePipeline._appendCodeCell d w) w (Normal d) x' [].
Proof.
  intros Hid [cell Hcell].
  unfold MessagePipeline._appendCodeCell, bind, call_total. rewrite Hid. simpl.
  rewrite Hcell. apply ran_silently.
Qed.

(** After an append the generated id is in the cell map, and so is every id
    that was there before. *)
Lemma appendMarkdownCell_run d i :
  exists d',
    (forall w x', uuid_v4 (ext w) = (i, x') ->
       ran (MessagePipeline._appendMarkdownCell d w) w (Normal d') x' []) /\
    is_Some (cells d' !! i) /\
    (forall j, is_Some (cells d !! j) -> is_Some (cells d' !! j)).
Proof.
  destruct (cells d !! i) as [cell|] eqn:Hcell.
  - exists d. split; [|by rewrite Hcell].
    intros w x' Hid. apply appendMarkdownCell_present with i; [done|by rewrite Hcell].
  - eexists. split; [|split].
    + intros w x' Hid.
      unfold MessagePipeline._appendMarkdownCell, bind, call_total. rewrite Hid. simpl.
      rewrite Hcell. apply ran_silently.
    + simpl. by rewrite lookup_insert_eq.
    + simpl. intros j Hj. destruct (decide (i = j)) as [->|Hne].
      * by rewrite lookup_insert_eq.
      * by rewrite lookup_insert_ne.
Qed.

Lemma appendCodeCell_run d i :
  exists d',
    (forall w x', uuid_v4 (ext w) = (i, x') ->
       ran (MessagePipeline._appendCodeCell d w) w (Normal d') x' []) /\
    is_Some (cells d' !! i) /\
    (forall j, is_Some (cells d !! j) -> is_Some (cells d' !! j)).
Proof.
  destruct (cells d !! i) as [cell|] eqn:Hcell.
  - exists d. split; [|by rewrite Hcell].
    intros w x' Hid. apply appendCodeCell_present with i; [done|by rewrite Hcell].
  - eexists. split; [|split].
    + intros w x' Hid.
      unfold MessagePipeline._appendCodeCell, bind, call_total. rewrite Hid. simpl.
      rewrite Hcell. apply ran_silently.
    + simpl. by rewrite lookup_insert_eq.
    + simpl. intros j Hj. destruct (decide (i = j)) as [->|Hne].
      * by rewrite lookup_insert_eq.
      * by rewrite lookup_insert_ne.
Qed.

(** Two runs in a row that do not touch the trace. *)
Lemma ran_bind {A B} (c1 : M MessagePipeline.t A) (c2 : A -> M MessagePipeline.t B)
    w a x1 r x2 :
  ran (c1 w) w (Normal a) x1 [] ->
  (forall w1, this w1 = this w -> heap w1 = heap w -> trace w1 = trace w -> ext w1 = x1 ->
     ran (c2 a w1) w1 r x2 []) ->
  ran (bind c1 c2 w) w r x2 [].
Proof.
  unfold ran, bind. intros -> Hc2. rewrite app_nil_r.
  specialize (Hc2 {| this := this w; heap := heap w; ext := x1; trace := trace w |}
                eq_refl eq_refl eq_refl eq_refl).
  simpl in Hc2. by rewrite app_nil_r in Hc2.
Qed.

End NotebookFacts.

(** C5.  When the generator hands out distinct identifiers [a] and [b] for
    the two cells, the notebook that [_createBlankNotebook] builds and passes
    to the ActiveNotebook constructor has the worksheet [a; b], [a] being the
    id of a markdown cell with the fixed placeholder text and [b] the id of a
    code cell with empty source, and its cell map holds exactly these two
    cells. *)
Theorem createBlankNotebook_two_cells `{Collaborators}
    (w : World MessagePipeline.t) (id a b : string) (x0 x1 x2 : Ext) :
  uuid_v4 (ext w) = (id, x0) ->
  uuid_v4 x0 = (a, x1) ->
  uuid_v4 x1 = (b, x2) ->
  a <> b ->
  MessagePipeline._createBlankNotebook w =
    call (ActiveNotebook_wrap (default_document id a b))
      {| this := this w; heap := heap w; ext := x2; trace := trace w |} /\
  worksheet (default_document id a b) = [a; b] /\
  cells (default_document id a b) !! a = Some (markdown_cell a) /\
  cells (default_document id a b) !! b = Some (code_cell b) /\
  dom (cells (default_document id a b)) = {[a; b]} /\
  size (cells (default_document id a b)) = 2.
Proof.
  intros Hid Ha Hb Hne. split; [|split; [done|split; [|split; [|split]]]].
  - unfold MessagePipeline._createBlankNotebook, MessagePipeline._appendMarkdownCell,
      MessagePipeline._appendCodeCell, bind, call_total, ret. simpl.
    rewrite Hid. simpl. rewrite Ha. simpl. rewrite lookup_empty. simpl.
    rewrite Hb. simpl. rewrite lookup_insert_ne by done. rewrite lookup_empty.
    unfold default_document, markdown_cell, code_cell.
    rewrite <- insert_empty. rewrite (insert_insert_ne _ a b) by done. reflexivity.
  - simpl. by rewrite lookup_insert_eq.
  - simpl. rewrite lookup_insert_ne by done. by rewrite lookup_singleton_eq.
  - simpl. rewrite dom_insert_L, dom_singleton_L. apply set_eq. intros x.
    rewrite !elem_of_union, !elem_of_singleton. tauto.
  - simpl. rewrite map_size_insert_None by (by rewrite lookup_singleton_ne).
    by rewrite map_size_singleton.
Qed.

Lemma createBlankNotebook_two_cells_witness :
  MessagePipeline._createBlankNotebook (Demo.pipeline0 []) =
    call (ActiveNotebook_wrap (default_document "a" "b" "c"))
      {| this := this (Demo.pipeline0 []); heap := heap (Demo.pipeline0 []);
         ext := 3; trace := trace (Demo.pipeline0 []) |} /\
  worksheet (default_document "a" "b" "c") = ["b"; "c"] /\
  size (cells (default_document "a" "b" "c")) = 2.
Proof.
  destruct (createBlankNotebook_two_cells (Demo.pipeline0 []) "a" "b" "c" 1 2 3
              eq_refl eq_refl eq_refl ltac:(discriminate))
    as (Hrun & Hws & _ & _ & _ & Hsize).
  repeat split; assumption.
Defined.

(** C6.  For every document [d]: an append (of either kind) whose generated
    id [i] is already in the cell map of [d] returns [d] as it was, no cell
    overwritten and no worksheet entry added; hence, once the two default
    cells have been inserted into [d] with the ids [a] and [b], giving [d1],
    inserting them again into [d1] with a generator that hands out [a] and
    [b] again returns [d1] unchanged. *)
Theorem append_cell_idempotent `{Collaborators}
    (d : Notebook) (w : World MessagePipeline.t) :
  (forall i x',
     uuid_v4 (ext w) = (i, x') ->
     is_Some (cells d !! i) ->
     ran (MessagePipeline._appendMarkdownCell d w) w (Normal d) x' [] /\
     ran (MessagePipeline._appendCodeCell d w) w (Normal d) x' [])
  /\
  (forall a x1 b x2 (w2 : World MessagePipeline.t) y1 y2,
     uuid_v4 (ext w) = (a, x1) ->
     uuid_v4 x1 = (b, x2) ->
     uuid_v4 (ext w2) = (a, y1) ->
     uuid_v4 y1 = (b, y2) ->
     exists d1,
       ran ((d' <~ MessagePipeline._appendMarkdownCell d ;;
             MessagePipeline._appendCodeCell d') w) w (Normal d1) x2 [] /\
       ran ((d' <~ MessagePipeline._appendMarkdownCell d1 ;;
             MessagePipeline._appendCodeCell d') w2) w2 (Normal d1) y2 []).
Proof.
  split.
  - intros i x' Hid Hin. split.
    + by apply appendMarkdownCell_present with i.
    + by apply appendCodeCell_present with i.
  - intros a x1 b x2 w2 y1 y2 Ha Hb Ha2 Hb2.
    destruct (appendMarkdownCell_run d a) as (da & Hrun_a & Hin_a & Hmono_a).
    destruct (appendCodeCell_run da b) as (d1 & Hrun_b & Hin_b & Hmono_b).
    exists d1. split.
    + apply ran_bind with da x1; [by apply Hrun_a|].
      intros w1 _ _ _ Hext. apply Hrun_b. by rewrite Hext.
    + apply ran_bind with d1 y1.
      * apply appendMarkdownCell_present with a; [done|]. by apply Hmono_b.
      * intros w1 _ _ _ Hext. apply appendCodeCell_present with b; [|done].
        by rewrite Hext.
Qed.

Lemma append_cell_idempotent_witness :
  ran (MessagePipeline._appendCodeCell (default_document "n" "a" "b") (Demo.pipeline0 []))
      (Demo.pipeline0 []) (Normal (default_document "n" "a" "b")) 1 []
  /\
  exists d1,
    ran ((d' <~ MessagePipeline._appendMarkdownCell
                  {| notebook_id := "n"; cells := ∅; worksheet := [] |} ;;
          MessagePipeline._appendCodeCell d') (Demo.pipeline0 []))
        (Demo.pipeline0 []) (Normal d1) 2 [] /\
    ran ((d' <~ MessagePipeline._appendMarkdownCell d1 ;;
          MessagePipeline._appendCodeCell d') (Demo.pipeline0 [Demo.veto]))
        (Demo.pipeline0 [Demo.veto]) (Normal d1) 2 [].
Proof.
  split.
  - destruct (append_cell_idempotent (default_document "n" "a" "b") (Demo.pipeline0 []))
      as [Hpresent _].
    apply (Hpresent "a" 1).
    + reflexivity.
    + exists (markdown_cell "a"). vm_compute. reflexivity.
  - destruct (append_cell_idempotent {| notebook_id := "n"; cells := ∅; worksheet := [] |}
                (Demo.pipeline0 [])) as [_ Hagain].
    apply (Hagain "a" 1 "b" 2 (Demo.pipeline0 [Demo.veto]) 1 2); reflexivity.
Defined.

(** The two insertions, computed: with the ids "a" and "b" an empty document
    becomes the default document. *)
Example insert_default_cells :
  fst ((d' <~ MessagePipeline._appendMarkdownCell
                {| notebook_id := "n"; cells := ∅; worksheet := [] |} ;;
        MessagePipeline._appendCodeCell d') (Demo.pipeline0 [])) =
  Normal (default_document "n" "a" "b").
Proof. vm_compute. reflexivity. Qed.

(** ** A session over its life, computed

    [alice] connects under the key "abc", disconnects, and connects again
    from a second connection: the registry still binds "abc" to object 1,
    which has the kernel and the notebook it was created with and the new
    connection.  A message sent through the upper-casing chain is then
    delivered upper-cased. *)

Example reconnect_scenario :
  let w1 := snd (SessionManager._registerHandlers (Connect Demo.alice)
                   (Demo.manager0 [Demo.upper])) in
  let w2 := snd (SessionManager._registerHandlers (Disconnect Demo.alice) w1) in
  let w3 := snd (SessionManager._registerHandlers (Connect Demo.alice') w2) in
  let w4 := snd (SessionManager._handleMessage (VObj [("type", VStr "exec")]) 1%positive
                   Demo.deliver w3) in
  SessionManager._idToSession (this w3) !! "abc" = Some 1%positive /\
  heap w1 !! 1%positive = Some Demo.manager_session /\
  heap w2 !! 1%positive = Some Demo.manager_session /\
  heap w3 !! 1%positive = Some (updateUserConnection Demo.manager_session Demo.alice') /\
  size (heap w3) = 1 /\
  trace w4 = [EvProcessor 0 (VObj [("type", VStr "exec")]) 1%positive;
              EvCallback (VObj [("type", VStr "EXEC")])].
Proof. vm_compute. repeat split. Qed.

(** A vetoed and a failing message, computed: the processors after the veto
    or the failure do not run and nothing is delivered. *)
Example veto_and_failure :
  trace (snd (MessagePipeline._handleMessage (VStr "exec") 1%positive Demo.deliver
                (Demo.pipeline0 [Demo.upper; Demo.veto; Demo.upper]))) =
    [EvProcessor 0 (VStr "exec") 1%positive; EvProcessor 1 (VStr "EXEC") 1%positive;
     EvLog (VStr "exec")] /\
  fst (MessagePipeline._handleMessage (VStr "exec") 1%positive Demo.deliver
         (Demo.pipeline0 [Demo.broken; Demo.upper])) = Throw "processor failed" /\
  trace (snd (MessagePipeline._handleMessage (VStr "exec") 1%positive Demo.deliver
                (Demo.pipeline0 [Demo.broken; Demo.upper]))) =
    [EvProcessor 0 (VStr "exec") 1%positive].
Proof. vm_compute. repeat split. Qed.

(** * Further properties *)

(** ** Every run of the message handler *)

Lemma logs_app evs1 evs2 : logs (evs1 ++ evs2) = logs evs1 ++ logs evs2.
Proof.
  induction evs1 as [|[i v s|v|v] evs1 IH]; simpl; [done| done | | done].
  by rewrite IH.
Qed.

Lemma loop_events_shape rest : forall i0 message v s,
  exists k,
    k <= length rest /\
    fst <$> processor_calls (loop_events i0 rest message v s) = seq i0 k /\
    callbacks (loop_events i0 rest message v s) = [] /\
    ((logs (loop_events i0 rest message v s) = [message] /\
      loop_result rest v s = Normal VNull /\ rest <> [])
     \/ (logs (loop_events i0 rest message v s) = [] /\
         (loop_result rest v s = Normal VNull -> rest = [] /\ v = VNull))) /\
    (forall v', loop_result rest v s = Normal v' -> v' <> VNull -> k = length rest).
Proof.
  induction rest as [|p rest IH]; intros i0 message v s.
  - exists 0. simpl. split; [lia|]. split; [done|]. split; [done|]. split.
    + right. split; [done|]. by intros [= ->].
    + done.
  - simpl. destruct (p v s) as [v'|e] eqn:Hp.
    + destruct (is_null v') eqn:Hnull.
      * exists 1. simpl. destruct v'; try discriminate Hnull.
        split; [lia|]. split; [done|]. split; [done|]. split.
        -- by left.
        -- by intros v' [= <-].
      * destruct (IH (S i0) message v' s) as (k & Hk & Hidx & Hcb & Hlog & Hall).
        exists (S k). simpl. split; [lia|]. split; [by f_equal|]. split; [done|].
        split.
        -- destruct Hlog as [(Hl & Hr & _)|(Hl & Hr)].
           ++ left. done.
           ++ right. split; [done|]. intros Hres.
              destruct (Hr Hres) as [_ ->]. discriminate Hnull.
        -- intros v'' Hres Hne. f_equal. by apply (Hall v'').
    + exists 1. simpl. split; [lia|]. split; [done|]. split; [done|]. split.
      * right. split; [done|]. done.
      * done.
Qed.

Section RunFacts.
Context `{Collaborators} {T : Type}.
Implicit Types (w : World T) (ps : list MessageProcessor) (cb : EventHandler).

Lemma handled_emitted ps m s cb w :
  this (snd (handled ps m s cb w)) = this w /\
  heap (snd (handled ps m s cb w)) = heap w /\
  trace (snd (handled ps m s cb w)) = trace w ++ handled_events ps m s /\
  emitted w (snd (handled ps m s cb w)) = handled_events ps m s.
Proof.
  unfold handled, handled_events, emitted.
  destruct (loop_result ps m s) as [v|e]; [destruct (is_null v)|]; simpl;
    rewrite ?app_nil_r, ?drop_app_length; done.
Qed.

Lemma handled_bounded ps m s cb w :
  bounded_run ps w (snd (handled ps m s cb w)).
Proof.
  destruct (handled_emitted ps m s cb w) as (Hthis & Hheap & Htrace & Hev).
  unfold bounded_run. rewrite Hev. split; [done|]. split; [done|]. split; [done|].
  destruct (loop_events_shape ps 0 m m s) as (k & Hk & Hidx & Hcb & _ & Hall).
  exists k, (loop_events 0 ps m m s).
  split; [done|]. split; [done|]. split; [done|].
  unfold handled_events.
  destruct (loop_result ps m s) as [v|e] eqn:Hres; [destruct (is_null v) eqn:Hnull|].
  - left. by rewrite app_nil_r.
  - right. exists v. split; [|done]. apply (Hall v); [done|]. by intros ->.
  - left. by rewrite app_nil_r.
Qed.

Lemma loop_events_log rest : forall i0 message v s,
  logs (loop_events i0 rest message v s) = [] \/
  (exists pre, loop_events i0 rest message v s = pre ++ [EvLog message] /\
               logs pre = [] /\ loop_result rest v s = Normal VNull).
Proof.
  induction rest as [|p rest IH]; intros i0 message v s; simpl; [by left|].
  destruct (p v s) as [v'|e]; [|by left].
  destruct (is_null v') eqn:Hnull.
  - right. exists [EvProcessor i0 v s]. destruct v'; try discriminate Hnull. done.
  - destruct (IH (S i0) message v' s) as [Hnone|(pre & Hev & Hpre & Hres)]; [by left|].
    right. exists (EvProcessor i0 v s :: pre). rewrite Hev. done.
Qed.

Lemma handled_log ps m s cb w :
  log_discipline (fst (handled ps m s cb w)) (handled_events ps m s).
Proof.
  destruct (loop_events_shape ps 0 m m s) as (k & _ & _ & Hcb & _ & _).
  unfold log_discipline, handled, handled_events.
  destruct (loop_events_log ps 0 m m s) as [Hnone|(pre & Hev & Hpre & Hres)].
  - left. rewrite logs_app, Hnone.
    by destruct (loop_result ps m s) as [v|e]; [destruct (is_null v)|].
  - right. exists pre, m. rewrite Hres. simpl. rewrite app_nil_r.
    split; [done|]. split; [done|]. split; [|done].
    rewrite Hev, callbacks_app in Hcb. by apply app_eq_nil in Hcb as [? _].
Qed.

End RunFacts.

Lemma callbacks_handled_events ps m s :
  callbacks (handled_events ps m s) =
    match loop_result ps m s with
    | Normal v => if is_null v then [] else [v]
    | Throw _ => []
    end.
Proof.
  destruct (loop_events_shape ps 0 m m s) as (k & _ & _ & Hcb & _).
  unfold handled_events. rewrite callbacks_app, Hcb.
  by destruct (loop_result ps m s) as [v|e]; [destruct (is_null v)|].
Qed.

Lemma loop_result_app ps1 : forall ps2 v s,
  v <> VNull ->
  loop_result (ps1 ++ ps2) v s =
    match loop_result ps1 v s with
    | Normal v' => if is_null v' then Normal v' else loop_result ps2 v' s
    | Throw e => Throw e
    end.
Proof.
  induction ps1 as [|p ps1 IH]; intros ps2 v s Hv; simpl.
  - by rewrite (is_null_false _ Hv).
  - destruct (p v s) as [v'|e]; [|done].
    destruct (is_null v') eqn:Hnull; [by rewrite Hnull|].
    apply IH. intros ->. discriminate Hnull.
Qed.

(** X1.  In both classes, whatever the chain, the message and the callback,
    and whether the run returns or throws: handling a message changes neither
    the receiver nor the heap and only appends to the trace; what it appends
    is the calls of the processors 0..k-1, in order, for some k not above the
    length of the chain, followed by at most one call of the callback, which
    is made only when k is the length of the chain and comes after every
    processor call. *)
Theorem handleMessage_call_bounds `{Collaborators}
    (m : any) (s : loc) (cb : EventHandler)
    (wm : World SessionManager.t) (wp : World MessagePipeline.t) :
  bounded_run (SessionManager._messageProcessors (this wm)) wm
    (snd (SessionManager._handleMessage m s cb wm)) /\
  bounded_run (MessagePipeline._messageProcessors (this wp)) wp
    (snd (MessagePipeline._handleMessage m s cb wp)).
Proof.
  rewrite SessionManager_handleMessage_spec, MessagePipeline_handleMessage_spec.
  split; apply handled_bounded.
Qed.

(** X2.  In both classes the "Filtered" line is written at most once per
    message; when it is written it is the last call the handler makes, the
    callback has not been and is not called, and the handler returns
    normally. *)
Theorem handleMessage_log_discipline `{Collaborators}
    (m : any) (s : loc) (cb : EventHandler)
    (wm : World SessionManager.t) (wp : World MessagePipeline.t) :
  log_discipline (fst (SessionManager._handleMessage m s cb wm))
    (emitted wm (snd (SessionManager._handleMessage m s cb wm))) /\
  log_discipline (fst (MessagePipeline._handleMessage m s cb wp))
    (emitted wp (snd (MessagePipeline._handleMessage m s cb wp))).
Proof.
  rewrite SessionManager_handleMessage_spec, MessagePipeline_handleMessage_spec.
  destruct (handled_emitted (SessionManager._messageProcessors (this wm)) m s cb wm)
    as (_ & _ & _ & ->).
  destruct (handled_emitted (MessagePipeline._messageProcessors (this wp)) m s cb wp)
    as (_ & _ & _ & ->).
  split; apply handled_log.
Qed.

(** X3.  In both classes, with no processor configured, a message other than
    [null] goes straight to the callback, unchanged and exactly once, and the
    handler completes as the callback does; a [null] message is taken for
    filtered: nothing is called, nothing is logged, the world is unchanged. *)
Theorem handleMessage_empty_chain `{Collaborators}
    (m : any) (s : loc) (cb : EventHandler)
    (wm : World SessionManager.t) (wp : World MessagePipeline.t) :
  SessionManager._messageProcessors (this wm) = [] ->
  MessagePipeline._messageProcessors (this wp) = [] ->
  (m = VNull ->
     SessionManager._handleMessage m s cb wm = (Normal tt, wm) /\
     MessagePipeline._handleMessage m s cb wp = (Normal tt, wp))
  /\
  (m <> VNull ->
     ran (SessionManager._handleMessage m s cb wm) wm
       (fst (cb m (ext wm))) (snd (cb m (ext wm))) [EvCallback m] /\
     ran (MessagePipeline._handleMessage m s cb wp) wp
       (fst (cb m (ext wp))) (snd (cb m (ext wp))) [EvCallback m]).
Proof.
  intros Hm Hp.
  unfold ran, SessionManager._handleMessage, MessagePipeline._handleMessage, bind, get_this.
  simpl. rewrite Hm, Hp. simpl. split.
  - intros ->. simpl. by destruct wm, wp.
  - intros Hne. rewrite (is_null_false _ Hne). unfold emit, call. simpl.
    destruct (cb m (ext wm)), (cb m (ext wp)). done.
Qed.

Lemma handleMessage_empty_chain_witness :
  SessionManager._handleMessage VNull 1%positive Demo.deliver (Demo.manager0 []) =
    (Normal tt, Demo.manager0 []) /\
  ran (MessagePipeline._handleMessage VUndefined 1%positive Demo.deliver (Demo.pipeline0 []))
    (Demo.pipeline0 []) (Normal tt) 0 [EvCallback VUndefined].
Proof.
  split.
  - apply (handleMessage_empty_chain VNull 1%positive Demo.deliver
             (Demo.manager0 []) (Demo.pipeline0 []) eq_refl eq_refl). reflexivity.
  - apply (handleMessage_empty_chain VUndefined 1%positive Demo.deliver
             (Demo.manager0 []) (Demo.pipeline0 []) eq_refl eq_refl). discriminate.
Defined.

(** X4.  Chains compose: for a message other than [null], a manager whose
    chain is [ps1 ++ ps2] delivers what a manager with the chain [ps2]
    delivers for the message a manager with the chain [ps1] delivers; and
    when the manager with [ps1] delivers nothing (a veto or an error), so does
    the one with [ps1 ++ ps2]. *)
Theorem handleMessage_chain_composes `{Collaborators}
    (ps1 ps2 : list MessageProcessor) (m : any) (s : loc) (cb : EventHandler)
    (w12 w1 w2 : World SessionManager.t) :
  SessionManager._messageProcessors (this w12) = ps1 ++ ps2 ->
  SessionManager._messageProcessors (this w1) = ps1 ->
  SessionManager._messageProcessors (this w2) = ps2 ->
  m <> VNull ->
  (forall v,
     callbacks (emitted w1 (snd (SessionManager._handleMessage m s cb w1))) = [v] ->
     callbacks (emitted w12 (snd (SessionManager._handleMessage m s cb w12))) =
     callbacks (emitted w2 (snd (SessionManager._handleMessage v s cb w2))))
  /\
  (callbacks (emitted w1 (snd (SessionManager._handleMessage m s cb w1))) = [] ->
   callbacks (emitted w12 (snd (SessionManager._handleMessage m s cb w12))) = []).
Proof.
  intros H12 H1 H2 Hm.
  rewrite !SessionManager_handleMessage_spec, H12, H1.
  destruct (handled_emitted (ps1 ++ ps2) m s cb w12) as (_ & _ & _ & ->).
  destruct (handled_emitted ps1 m s cb w1) as (_ & _ & _ & ->).
  rewrite !callbacks_handled_events, (loop_result_app ps1 ps2 m s Hm).
  split.
  - intros v Hv. rewrite SessionManager_handleMessage_spec, H2.
    destruct (handled_emitted ps2 v s cb w2) as (_ & _ & _ & ->).
    rewrite callbacks_handled_events.
    destruct (loop_result ps1 m s) as [v1|e]; [|discriminate Hv].
    destruct (is_null v1); [discriminate Hv|]. by injection Hv as ->.
  - intros Hnone.
    destruct (loop_result ps1 m s) as [v1|e]; [|done].
    destruct (is_null v1) eqn:Hnull; [by rewrite Hnull|discriminate Hnone].
Qed.

Lemma handleMessage_chain_composes_witness :
  callbacks (emitted (Demo.manager0 ([Demo.upper] ++ [Demo.veto]))
     (snd (SessionManager._handleMessage (VStr "exec") 1%positive Demo.deliver
             (Demo.manager0 ([Demo.upper] ++ [Demo.veto]))))) =
  callbacks (emitted (Demo.manager0 [Demo.veto])
     (snd (SessionManager._handleMessage (VStr "EXEC") 1%positive Demo.deliver
             (Demo.manager0 [Demo.veto])))).
Proof.
  destruct (handleMessage_chain_composes [Demo.upper] [Demo.veto] (VStr "exec") 1%positive
              Demo.deliver (Demo.manager0 ([Demo.upper] ++ [Demo.veto]))
              (Demo.manager0 [Demo.upper]) (Demo.manager0 [Demo.veto])
              eq_refl eq_refl eq_refl ltac:(discriminate)) as [Hdelivered _].
  apply (Hdelivered (VStr "EXEC")). reflexivity.
Defined.

(** ** The registry over any sequence of connection events *)

Section RegistryOverTime.
Context `{Collaborators} {T : Type}.
Variable registry : T -> gmap string loc.
Variable handlers : ConnectionEvent -> M T unit.

Hypothesis connect_existing : forall c (w : World T) l s,
  registry (this w) !! getSessionId c = Some l ->
  heap w !! l = Some s ->
  handlers (Connect c) w =
    (Normal tt, {| this := this w; heap := <[l := updateUserConnection s c]> (heap w);
                   ext := ext w; trace := trace w |}).

Hypothesis connect_new : forall c (w : World T) r w',
  registry (this w) !! getSessionId c = None ->
  handlers (Connect c) w = (r, w') ->
  (exists l s,
     r = Normal tt /\ (l ∉ dom (heap w)) /\ heap w' = <[l := s]> (heap w) /\
     session_id s = getSessionId c /\
     registry (this w') = <[getSessionId c := l]> (registry (this w)))
  \/ (exists e, r = Throw e /\ this w' = this w /\ heap w' = heap w).

Hypothesis disconnect_noop : forall c (w : World T),
  handlers (Disconnect c) w = (Normal tt, w).

(** What one event can do to a sound registry. *)
Lemma event_cases ev (w : World T) r w' :
  registry_sound registry w ->
  handlers ev w = (r, w') ->
  (this w' = this w /\ heap w' = heap w)
  \/ (exists c l s, ev = Connect c /\ r = Normal tt /\
        registry (this w) !! getSessionId c = Some l /\ heap w !! l = Some s /\
        this w' = this w /\ heap w' = <[l := updateUserConnection s c]> (heap w))
  \/ (exists c l s, ev = Connect c /\ r = Normal tt /\
        registry (this w) !! getSessionId c = None /\ (l ∉ dom (heap w)) /\
        session_id s = getSessionId c /\
        heap w' = <[l := s]> (heap w) /\
        registry (this w') = <[getSessionId c := l]> (registry (this w))).
Proof.
  intros Hsound Hrun. destruct ev as [c|c].
  - destruct (registry (this w) !! getSessionId c) as [l|] eqn:Hk.
    + destruct (Hsound _ _ Hk) as (s & Hl & _).
      rewrite (connect_existing c w l s Hk Hl) in Hrun. injection Hrun as <- <-.
      right. left. exists c, l, s. done.
    + destruct (connect_new c w r w' Hk Hrun)
        as [(l & s & -> & Hl & Hheap & Hid & Hreg) | (e & -> & Hthis & Hheap)].
      * right. right. exists c, l, s. done.
      * by left.
  - rewrite disconnect_noop in Hrun. injection Hrun as <- <-. by left.
Qed.

Lemma event_keeps_sound ev (w : World T) r w' :
  registry_sound registry w ->
  handlers ev w = (r, w') ->
  registry_sound registry w'.
Proof.
  intros Hsound Hrun. destruct ev as [c|c].
  - by apply (connect_keeps_registry_sound registry handlers connect_existing connect_new
                c w r w').
  - rewrite disconnect_noop in Hrun. by injection Hrun as <- <-.
Qed.


Lemma event_leaves_others c (w : World T) r w' :
  registry_sound registry w ->
  handlers (Connect c) w = (r, w') ->
  (forall k', k' <> getSessionId c ->
     registry (this w') !! k' = registry (this w) !! k') /\
  (forall l' s', heap w !! l' = Some s' ->
     registry (this w) !! getSessionId c <> Some l' ->
     heap w' !! l' = Some s').
Proof.
  intros Hsound Hrun.
  destruct (event_cases (Connect c) w r w' Hsound Hrun)
    as [[Hthis Hheap]|[(c' & l & s & [= <-] & _ & Hk & _ & Hthis & Hheap)
                      |(c' & l & s & [= <-] & _ & Hk & Hl & _ & Hheap & Hreg)]].
  - rewrite Hthis, Hheap. done.
  - rewrite Hthis, Hheap. split; [done|].
    intros l' s' Hl' Hne. rewrite lookup_insert_ne; [done|]. congruence.
  - rewrite Hreg, Hheap. split.
    + intros k' Hne. by rewrite lookup_insert_ne.
    + intros l' s' Hl' _. rewrite lookup_insert_ne; [done|].
      intros ->. apply Hl. apply elem_of_dom. by exists s'.
Qed.

Lemma event_keeps_entry ev (w : World T) r w' k l :
  registry_sound registry w ->
  handlers ev w = (r, w') ->
  registry (this w) !! k = Some l ->
  registry (this w') !! k = Some l.
Proof.
  intros Hsound Hrun Hk.
  destruct (event_cases ev w r w' Hsound Hrun)
    as [[Hthis _]|[(c & l0 & s & _ & _ & _ & _ & Hthis & _)
                  |(c & l0 & s & _ & _ & Hk0 & _ & _ & _ & Hreg)]].
  - by rewrite Hthis.
  - by rewrite Hthis.
  - rewrite Hreg, lookup_insert_ne; [done|]. congruence.
Qed.

Lemma event_keeps_bindings ev (w : World T) r w' l s :
  registry_sound registry w ->
  handlers ev w = (r, w') ->
  heap w !! l = Some s ->
  exists s', heap w' !! l = Some s' /\
             kernel s' = kernel s /\ notebook s' = notebook s /\
             session_id s' = session_id s.
Proof.
  intros Hsound Hrun Hl.
  destruct (event_cases ev w r w' Hsound Hrun)
    as [[_ Hheap]|[(c & l0 & s0 & _ & _ & _ & Hl0 & _ & Hheap)
                  |(c & l0 & s0 & _ & _ & _ & Hfresh & _ & Hheap & _)]].
  - exists s. by rewrite Hheap.
  - rewrite Hheap. destruct (decide (l0 = l)) as [->|Hne].
    + exists (updateUserConnection s0 c). rewrite lookup_insert_eq.
      rewrite Hl in Hl0. by injection Hl0 as <-.
    + exists s. by rewrite lookup_insert_ne.
  - exists s. rewrite Hheap, lookup_insert_ne; [done|].
    intros ->. apply Hfresh. apply elem_of_dom. by exists s.
Qed.

(** A property every handler keeps is kept over any number of turns. *)
Lemma turns_keep (P : World T -> Prop) st st' :
  (forall ev w r w', P w -> handlers ev w = (r, w') -> P w') ->
  turns handlers st st' ->
  P (world st) -> P (world st').
Proof.
  intros Hstep Hturns. induction Hturns as [st|st1 st2 st3 Hturn _ IH]; [done|].
  intros HP. apply IH.
  destruct Hturn as [before ev after done w r w' Hrun]. simpl in *.
  by apply (Hstep ev w r w').
Qed.


Lemma turns_keep_entry st st' k l :
  turns handlers st st' ->
  registry_sound registry (world st) ->
  registry (this (world st)) !! k = Some l ->
  registry (this (world st')) !! k = Some l.
Proof.
  intros Hturns Hsound Hk.
  apply (turns_keep (fun w => registry_sound registry w /\ registry (this w) !! k = Some l)
           st st'); [|done|done].
  intros ev w r w' [Hs Hw] Hrun. split.
  - by apply (event_keeps_sound ev w r w').
  - by apply (event_keeps_entry ev w r w').
Qed.

Lemma turns_keep_bindings st st' l s :
  turns handlers st st' ->
  registry_sound registry (world st) ->
  heap (world st) !! l = Some s ->
  exists s', heap (world st') !! l = Some s' /\
             kernel s' = kernel s /\ notebook s' = notebook s /\
             session_id s' = session_id s.
Proof.
  intros Hturns Hsound Hl.
  apply (turns_keep
           (fun w => registry_sound registry w /\
                     exists s', heap w !! l = Some s' /\
                                kernel s' = kernel s /\ notebook s' = notebook s /\
                                session_id s' = session_id s) st st'); [|done|].
  - intros ev w r w' [Hs (s1 & Hl1 & Hk1 & Hn1 & Hi1)] Hrun. split.
    + by apply (event_keeps_sound ev w r w').
    + destruct (event_keeps_bindings ev w r w' l s1 Hs Hrun Hl1)
        as (s2 & Hl2 & Hk2 & Hn2 & Hi2).
      exists s2. repeat split; congruence.
  - split; [done|]. by exists s.
Qed.

End RegistryOverTime.

Ltac manager_registry :=
  first [ intros ? ? ? ?; apply SessionManager_connect_existing
        | intros ? ? ? ?; apply SessionManager_connect_new
        | intros ? ?; reflexivity ].

Ltac pipeline_registry :=
  first [ intros ? ? ? ?; apply MessagePipeline_connect_existing
        | intros ? ? ? ?; apply MessagePipeline_connect_new
        | intros ? ?; reflexivity ].

Lemma attached_sound : registry_sound SessionManager._idToSession Demo.attached.
Proof.
  intros k l Hk. simpl in Hk. apply lookup_singleton_Some in Hk as [<- <-].
  exists Demo.manager_session. split; reflexivity.
Qed.

Lemma one_turn `{Collaborators} {T} (handlers : ConnectionEvent -> M T unit) ev (w : World T) :
  turns handlers {| pending := [ev]; finished := []; world := w |}
    {| pending := []; finished := [(ev, fst (handlers ev w))];
       world := snd (handlers ev w) |}.
Proof.
  eapply turns_step; [|apply turns_refl].
  apply (turn_dispatch handlers [] ev [] [] w _ _ (surjective_pairing _)).
Qed.

Lemma createBlankNotebook_run `{Collaborators}
    (w : World MessagePipeline.t) (id a b : string) (x0 x1 x2 : Ext) :
  uuid_v4 (ext w) = (id, x0) ->
  uuid_v4 x0 = (a, x1) ->
  uuid_v4 x1 = (b, x2) ->
  a <> b ->
  MessagePipeline._createBlankNotebook w =
    call (ActiveNotebook_wrap (default_document id a b))
      {| this := this w; heap := heap w; ext := x2; trace := trace w |}.
Proof.
  intros Hid Ha Hb Hne.
  unfold MessagePipeline._createBlankNotebook, MessagePipeline._appendMarkdownCell,
    MessagePipeline._appendCodeCell, bind, call_total, ret. simpl.
  rewrite Hid. simpl. rewrite Ha. simpl. rewrite lookup_empty. simpl.
  rewrite Hb. simpl. rewrite lookup_insert_ne by done. rewrite lookup_empty.
  unfold default_document, markdown_cell, code_cell.
  rewrite <- insert_empty. rewrite (insert_insert_ne _ a b) by done. reflexivity.
Qed.

Lemma MessagePipeline_connect_creates `{Collaborators}
    (w : World MessagePipeline.t) (c : IUserConnection)
    (p1 p2 : N) (x1 x2 x3 y0 y1 y2 y3 : Ext) (kern : IKernel)
    (id a b : string) (nb : IActiveNotebook) :
  MessagePipeline._idToSession (this w) !! getSessionId c = None ->
  inherited (getSessionId c) = false ->
  getAvailablePort (ext w) = (Normal p1, x1) ->
  getAvailablePort x1 = (Normal p2, x2) ->
  kernelManager_create {| iopubPort := p1; shellPort := p2 |} x2 = (Normal kern, x3) ->
  uuid_v4 x3 = (id, y0) ->
  uuid_v4 y0 = (a, y1) ->
  uuid_v4 y1 = (b, y2) ->
  a <> b ->
  ActiveNotebook_wrap (default_document id a b) y2 = (Normal nb, y3) ->
  MessagePipeline._handleUserConnect c w =
    (Normal tt,
     {| this := {| MessagePipeline._idToSession :=
                     <[getSessionId c := fresh (dom (heap w))]>
                       (MessagePipeline._idToSession (this w));
                   MessagePipeline._messageProcessors :=
                     MessagePipeline._messageProcessors (this w) |};
        heap := <[fresh (dom (heap w)) :=
                    new_Session (getSessionId c) c kern nb bound_handleMessage]> (heap w);
        ext := y3;
        trace := trace w |}).
Proof.
  intros Hk Hkey Hp1 Hp2 Hkern Hid Ha Hb Hne Hwrap.
  unfold MessagePipeline._handleUserConnect, MessagePipeline._createSession, get_property,
    bind, get_this, set_this, alloc. simpl.
  rewrite Hk, Hkey. unfold call at 1. rewrite Hp1. simpl.
  unfold call at 1. simpl. rewrite Hp2. simpl.
  unfold call at 1. simpl. rewrite Hkern. simpl.
  rewrite (createBlankNotebook_run _ id a b y0 y1 y2) by done.
  unfold call. simpl. rewrite Hwrap. reflexivity.
Qed.

(** X5.  A connect event with a key unknown to the pipeline that names no
    member of Object.prototype, the collaborators succeeding and the
    generator handing out distinct cell ids: exactly one session object is
    allocated, made of the key, the connection, the kernel created with the
    two ports allocated just before, and the notebook object built from the
    default document (ids drawn after the kernel is created: document id
    first, then the two cells); the registry gains the entry for the key and
    nothing else changes. *)
Theorem pipeline_connect_registers_new_session `{Collaborators}
    (w : World MessagePipeline.t) (c : IUserConnection) (k : string)
    (p1 p2 : N) (x1 x2 x3 y0 y1 y2 y3 : Ext) (kern : IKernel)
    (id a b : string) (nb : IActiveNotebook) :
  getSessionId c = k ->
  MessagePipeline._idToSession (this w) !! k = None ->
  inherited k = false ->
  getAvailablePort (ext w) = (Normal p1, x1) ->
  getAvailablePort x1 = (Normal p2, x2) ->
  kernelManager_create {| iopubPort := p1; shellPort := p2 |} x2 = (Normal kern, x3) ->
  uuid_v4 x3 = (id, y0) ->
  uuid_v4 y0 = (a, y1) ->
  uuid_v4 y1 = (b, y2) ->
  a <> b ->
  ActiveNotebook_wrap (default_document id a b) y2 = (Normal nb, y3) ->
  exists l w',
    MessagePipeline._handleUserConnect c w = (Normal tt, w') /\
    (l ∉ dom (heap w)) /\
    heap w' = <[l := new_Session k c kern nb bound_handleMessage]> (heap w) /\
    created w w' = {[l]} /\
    MessagePipeline._idToSession (this w') =
      <[k := l]> (MessagePipeline._idToSession (this w)) /\
    MessagePipeline._messageProcessors (this w') =
      MessagePipeline._messageProcessors (this w) /\
    ext w' = y3 /\
    trace w' = trace w.
Proof.
  intros <- Hk Hkey Hp1 Hp2 Hkern Hid Ha Hb Hne Hwrap.
  exists (fresh (dom (heap w))). eexists.
  split; [by apply (MessagePipeline_connect_creates w c p1 p2 x1 x2 x3 y0 y1 y2 y3
                      kern id a b nb)|].
  simpl.
  pose proof (is_fresh (dom (heap w))) as Hfresh.
  split; [exact Hfresh|]. split; [reflexivity|]. split.
  { by eapply created_insert. }
  repeat split.
Qed.

Lemma pipeline_connect_registers_new_session_witness :
  exists l w',
    MessagePipeline._handleUserConnect Demo.alice (Demo.pipeline0 []) = (Normal tt, w') /\
    created (Demo.pipeline0 []) w' = {[l]} /\
    heap w' = <[l := Demo.pipeline_session]> (heap (Demo.pipeline0 [])).
Proof.
  destruct (pipeline_connect_registers_new_session (Demo.pipeline0 []) Demo.alice "abc"
              8000 8001 1 2 2 3 4 5 5 Demo.kernel0 "c" "d" "e" Demo.blank_notebook
              eq_refl eq_refl eq_refl eq_refl eq_refl eq_refl eq_refl eq_refl eq_refl
              ltac:(discriminate) eq_refl)
    as (l & w' & Hrun & _ & Hheap & Hcreated & _).
  exists l, w'. repeat split; assumption.
Defined.

(** X6.  In each class, with a sound registry, a connect event that throws
    has registered nothing: the receiver and the heap are as before, and the
    registry held no session under the key of the connection (a connect to a
    registered session never throws). *)
Theorem connect_failure_registers_nothing `{Collaborators} (c : IUserConnection) :
  (forall (wm wm' : World SessionManager.t) (e : Error),
     registry_sound SessionManager._idToSession wm ->
     SessionManager._handleUserConnect c wm = (Throw e, wm') ->
     this wm' = this wm /\ heap wm' = heap wm /\
     SessionManager._idToSession (this wm) !! getSessionId c = None)
  /\
  (forall (wp wp' : World MessagePipeline.t) (e : Error),
     registry_sound MessagePipeline._idToSession wp ->
     MessagePipeline._handleUserConnect c wp = (Throw e, wp') ->
     this wp' = this wp /\ heap wp' = heap wp /\
     MessagePipeline._idToSession (this wp) !! getSessionId c = None).
Proof.
  split.
  - intros wm wm' e Hsm Hrunm.
    destruct (event_cases SessionManager._idToSession SessionManager._registerHandlers
                ltac:(manager_registry) ltac:(manager_registry) ltac:(manager_registry)
                (Connect c) wm (Throw e) wm' Hsm Hrunm)
      as [[Hthis Hheap]|[(? & ? & ? & _ & [=] & _)|(? & ? & ? & _ & [=] & _)]].
    split; [done|]. split; [done|].
    destruct (SessionManager._idToSession (this wm) !! getSessionId c) as [l|] eqn:Hk;
      [|done].
    destruct (Hsm _ _ Hk) as (s & Hl & _).
    rewrite (SessionManager_connect_existing c wm l s Hk Hl) in Hrunm. discriminate Hrunm.
  - intros wp wp' e Hsp Hrunp.
    destruct (event_cases MessagePipeline._idToSession MessagePipeline._registerHandlers
                ltac:(pipeline_registry) ltac:(pipeline_registry) ltac:(pipeline_registry)
                (Connect c) wp (Throw e) wp' Hsp Hrunp)
      as [[Hthis Hheap]|[(? & ? & ? & _ & [=] & _)|(? & ? & ? & _ & [=] & _)]].
    split; [done|]. split; [done|].
    destruct (MessagePipeline._idToSession (this wp) !! getSessionId c) as [l|] eqn:Hk;
      [|done].
    destruct (Hsp _ _ Hk) as (s & Hl & _).
    rewrite (MessagePipeline_connect_existing c wp l s Hk Hl) in Hrunp. discriminate Hrunp.
Qed.

Lemma connect_failure_registers_nothing_witness :
  this (snd (@SessionManager._handleUserConnect Demo.exhausted Demo.alice
               Demo.exhausted_manager0)) = this Demo.exhausted_manager0 /\
  heap (snd (MessagePipeline._handleUserConnect Corner.mallory (Demo.pipeline0 []))) =
    heap (Demo.pipeline0 []).
Proof.
  split.
  - destruct (@connect_failure_registers_nothing Demo.exhausted Demo.alice) as [Hmanager _].
    apply (Hmanager Demo.exhausted_manager0 _ "no kernel available").
    + apply (@registry_sound_initially Demo.exhausted tt [] 0).
    + reflexivity.
  - destruct (@connect_failure_registers_nothing Demo.collaborators Corner.mallory)
      as [_ Hpipeline].
    apply (Hpipeline (Demo.pipeline0 []) _
             "TypeError: session.updateUserConnection is not a function").
    + apply (@registry_sound_initially Demo.collaborators tt [] 0).
    + reflexivity.
Defined.

Section Frame.
Context `{Collaborators}.

Lemma SessionManager_connect_frame c (w : World SessionManager.t) r w' :
  SessionManager._handleUserConnect c w = (r, w') ->
  (forall k', k' <> getSessionId c ->
     SessionManager._idToSession (this w') !! k' =
     SessionManager._idToSession (this w) !! k') /\
  (forall l' s', heap w !! l' = Some s' ->
     SessionManager._idToSession (this w) !! getSessionId c <> Some l' ->
     heap w' !! l' = Some s').
Proof.
  intros Hrun.
  destruct (SessionManager._idToSession (this w) !! getSessionId c) as [l|] eqn:Hk.
  - destruct (heap w !! l) as [s|] eqn:Hl.
    + rewrite (SessionManager_connect_existing c w l s Hk Hl) in Hrun.
      injection Hrun as <- <-. simpl. split; [done|].
      intros l' s' Hl' Hne. rewrite lookup_insert_ne; [done|]. congruence.
    + unfold SessionManager._handleUserConnect, get_property, bind, get_this,
        update_object in Hrun. simpl in Hrun. rewrite Hk, Hl in Hrun.
      by injection Hrun as <- <-.
  - destruct (SessionManager_connect_new c w r w' Hk Hrun)
      as [(l & s & -> & Hl & Hheap & Hid & Hreg) | (e & -> & Hthis & Hheap)].
    + rewrite Hreg, Hheap. split.
      * intros k' Hne. by rewrite lookup_insert_ne.
      * intros l' s' Hl' _. rewrite lookup_insert_ne; [done|].
        intros ->. apply Hl. apply elem_of_dom. by exists s'.
    + by rewrite Hthis, Hheap.
Qed.

Lemma MessagePipeline_connect_frame c (w : World MessagePipeline.t) r w' :
  MessagePipeline._handleUserConnect c w = (r, w') ->
  (forall k', k' <> getSessionId c ->
     MessagePipeline._idToSession (this w') !! k' =
     MessagePipeline._idToSession (this w) !! k') /\
  (forall l' s', heap w !! l' = Some s' ->
     MessagePipeline._idToSession (this w) !! getSessionId c <> Some l' ->
     heap w' !! l' = Some s').
Proof.
  intros Hrun.
  destruct (MessagePipeline._idToSession (this w) !! getSessionId c) as [l|] eqn:Hk.
  - destruct (heap w !! l) as [s|] eqn:Hl.
    + rewrite (MessagePipeline_connect_existing c w l s Hk Hl) in Hrun.
      injection Hrun as <- <-. simpl. split; [done|].
      intros l' s' Hl' Hne. rewrite lookup_insert_ne; [done|]. congruence.
    + unfold MessagePipeline._handleUserConnect, get_property, bind, get_this,
        update_object in Hrun. simpl in Hrun. rewrite Hk, Hl in Hrun.
      by injection Hrun as <- <-.
  - destruct (MessagePipeline_connect_new c w r w' Hk Hrun)
      as [(l & s & -> & Hl & Hheap & Hid & Hreg) | (e & -> & Hthis & Hheap)].
    + rewrite Hreg, Hheap. split.
      * intros k' Hne. by rewrite lookup_insert_ne.
      * intros l' s' Hl' _. rewrite lookup_insert_ne; [done|].
        intros ->. apply Hl. apply elem_of_dom. by exists s'.
    + by rewrite Hthis, Hheap.
Qed.

End Frame.

(** X7.  In each class, whatever the world, a connect event for the key [k]
    touches nothing that belongs to another key: every other registry entry
    is as before, and every session object other than the one registered
    under [k] is as before, whether the event returns or throws. *)
Theorem connect_leaves_other_sessions `{Collaborators} (c : IUserConnection) :
  (forall (wm wm' : World SessionManager.t) (r : completion unit),
     SessionManager._handleUserConnect c wm = (r, wm') ->
     (forall k', k' <> getSessionId c ->
        SessionManager._idToSession (this wm') !! k' =
        SessionManager._idToSession (this wm) !! k') /\
     (forall l' s', heap wm !! l' = Some s' ->
        SessionManager._idToSession (this wm) !! getSessionId c <> Some l' ->
        heap wm' !! l' = Some s'))
  /\
  (forall (wp wp' : World MessagePipeline.t) (r : completion unit),
     MessagePipeline._handleUserConnect c wp = (r, wp') ->
     (forall k', k' <> getSessionId c ->
        MessagePipeline._idToSession (this wp') !! k' =
        MessagePipeline._idToSession (this wp) !! k') /\
     (forall l' s', heap wp !! l' = Some s' ->
        MessagePipeline._idToSession (this wp) !! getSessionId c <> Some l' ->
        heap wp' !! l' = Some s')).
Proof.
  split.
  - intros wm wm' r. apply SessionManager_connect_frame.
  - intros wp wp' r. apply MessagePipeline_connect_frame.
Qed.

(** [alice'] reconnects while [bob] has a session of his own: the entry and
    the session of [bob] are as before. *)
Lemma connect_leaves_other_sessions_witness :
  SessionManager._idToSession
    (this (snd (SessionManager._handleUserConnect Demo.alice' Corner.two_sessions))) !! "xyz" =
    Some 2%positive /\
  heap (snd (SessionManager._handleUserConnect Demo.alice' Corner.two_sessions))
    !! 2%positive = Some Corner.bob_session.
Proof.
  destruct (@connect_leaves_other_sessions Demo.collaborators Demo.alice')
    as [Hmanager _].
  destruct (Hmanager Corner.two_sessions
              (snd (SessionManager._handleUserConnect Demo.alice' Corner.two_sessions))
              (fst (SessionManager._handleUserConnect Demo.alice' Corner.two_sessions))
              (surjective_pairing _)) as [Hkeys Hobjects].
  split.
  - etransitivity; [apply (Hkeys "xyz"); discriminate|reflexivity].
  - apply Hobjects; [reflexivity|]. vm_compute. discriminate.
Defined.

(** X15.  In each class, for a key [k] that has no entry in the registry and
    names no member of Object.prototype, and collaborators that succeed from
    the current external state: when two connect events carrying [k] are
    pending together, in whatever order the event loop dispatches them (each
    handler running to completion), once both are handled both handlers have
    returned normally, exactly one session object has been allocated, it has
    key [k] and the registry binds [k] to it, and the collaborators were
    called for one session only (the external state is the one left by the
    first handler). *)
Theorem concurrent_connects_one_session `{Collaborators}
    (c1 c2 : IUserConnection) (k : string) :
  getSessionId c1 = k ->
  getSessionId c2 = k ->
  inherited k = false ->
  (forall (wm : World SessionManager.t) (stm : LoopState)
          (p1 p2 : N) (x1 x2 x3 x4 : Ext) (kern : IKernel) (nb : IActiveNotebook),
     SessionManager._idToSession (this wm) !! k = None ->
     getAvailablePort (ext wm) = (Normal p1, x1) ->
     getAvailablePort x1 = (Normal p2, x2) ->
     kernelManager_create {| iopubPort := p1; shellPort := p2 |} x2 = (Normal kern, x3) ->
     ActiveNotebook_open SessionManager.__temp_notebook_path
       (SessionManager._storage (this wm)) x3 = (Normal nb, x4) ->
     turns SessionManager._registerHandlers
       {| pending := [Connect c1; Connect c2]; finished := []; world := wm |} stm ->
     pending stm = [] ->
     one_session_for SessionManager._idToSession k wm (world stm) /\
     (forall ev r, (ev, r) ∈ finished stm -> r = Normal tt) /\
     ext (world stm) = x4)
  /\
  (forall (wp : World MessagePipeline.t) (stp : LoopState)
          (p1 p2 : N) (x1 x2 x3 y0 y1 y2 y3 : Ext) (kern : IKernel)
          (id a b : string) (nb : IActiveNotebook),
     MessagePipeline._idToSession (this wp) !! k = None ->
     getAvailablePort (ext wp) = (Normal p1, x1) ->
     getAvailablePort x1 = (Normal p2, x2) ->
     kernelManager_create {| iopubPort := p1; shellPort := p2 |} x2 = (Normal kern, x3) ->
     uuid_v4 x3 = (id, y0) ->
     uuid_v4 y0 = (a, y1) ->
     uuid_v4 y1 = (b, y2) ->
     a <> b ->
     ActiveNotebook_wrap (default_document id a b) y2 = (Normal nb, y3) ->
     turns MessagePipeline._registerHandlers
       {| pending := [Connect c1; Connect c2]; finished := []; world := wp |} stp ->
     pending stp = [] ->
     one_session_for MessagePipeline._idToSession k wp (world stp) /\
     (forall ev r, (ev, r) ∈ finished stp -> r = Normal tt) /\
     ext (world stp) = y3).
Proof.
  intros Hk1 Hk2 Hkey. split.
  - intros wm stm p1 p2 x1 x2 x3 x4 kern nb Hm Hp1 Hp2 Hkern Hnb Hturns Hdone.
    apply (connects_in_any_order_succeed SessionManager._idToSession
             SessionManager._registerHandlers) with c1 c2; try done.
    + intros c w l s. apply SessionManager_connect_existing.
    + intros c w r w'. apply SessionManager_connect_new.
    + intros c Hc. eexists. split.
      * apply (SessionManager_connect_creates wm c p1 p2 x1 x2 x3 x4 kern nb);
          by rewrite ?Hc.
      * reflexivity.
  - intros wp stp p1 p2 x1 x2 x3 y0 y1 y2 y3 kern id a b nb
      Hp Hp1 Hp2 Hkern Hid Ha Hb Hne Hwrap Hturns Hdone.
    apply (connects_in_any_order_succeed MessagePipeline._idToSession
             MessagePipeline._registerHandlers) with c1 c2; try done.
    + intros c w l s. apply MessagePipeline_connect_existing.
    + intros c w r w'. apply MessagePipeline_connect_new.
    + intros c Hc. eexists. split.
      * apply (MessagePipeline_connect_creates wp c p1 p2 x1 x2 x3 y0 y1 y2 y3 kern
                 id a b nb); by rewrite ?Hc.
      * reflexivity.
Qed.

Lemma concurrent_connects_one_session_witness :
  one_session_for SessionManager._idToSession "abc" (Demo.manager0 [])
    (world (Demo.both_handled SessionManager._registerHandlers (Demo.manager0 []))) /\
  one_session_for MessagePipeline._idToSession "abc" (Demo.pipeline0 [])
    (world (Demo.both_handled MessagePipeline._registerHandlers (Demo.pipeline0 []))).
Proof.
  destruct (@concurrent_connects_one_session Demo.collaborators Demo.alice Demo.alice' "abc"
              eq_refl eq_refl eq_refl) as [Hmanager Hpipeline].
  split.
  - apply (Hmanager (Demo.manager0 [])
             (Demo.both_handled SessionManager._registerHandlers (Demo.manager0 []))
             8000%N 8001%N 1 2 2 2 Demo.kernel0 Demo.stored_notebook
             eq_refl eq_refl eq_refl eq_refl eq_refl
             (both_handled_reachable _ _) eq_refl).
  - apply (Hpipeline (Demo.pipeline0 [])
             (Demo.both_handled MessagePipeline._registerHandlers (Demo.pipeline0 []))
             8000%N 8001%N 1 2 2 3 4 5 5 Demo.kernel0 "c" "d" "e" Demo.blank_notebook
             eq_refl eq_refl eq_refl eq_refl eq_refl eq_refl eq_refl
             ltac:(discriminate) eq_refl
             (both_handled_reachable _ _) eq_refl).
Defined.



(** X9.  In both classes, from a state with a sound registry, no sequence of
    connection events removes or replaces a registry entry: a key bound to a
    session object stays bound to that same object. *)
Theorem registry_entries_are_permanent `{Collaborators} (k : string) (l : loc) :
  (forall stm stm' : LoopState,
     registry_sound SessionManager._idToSession (world stm) ->
     turns SessionManager._registerHandlers stm stm' ->
     SessionManager._idToSession (this (world stm)) !! k = Some l ->
     SessionManager._idToSession (this (world stm')) !! k = Some l)
  /\
  (forall stp stp' : LoopState,
     registry_sound MessagePipeline._idToSession (world stp) ->
     turns MessagePipeline._registerHandlers stp stp' ->
     MessagePipeline._idToSession (this (world stp)) !! k = Some l ->
     MessagePipeline._idToSession (this (world stp')) !! k = Some l).
Proof.
  split.
  - intros stm stm' Hsound Hturns Hk.
    by apply (turns_keep_entry SessionManager._idToSession SessionManager._registerHandlers
                ltac:(manager_registry) ltac:(manager_registry) ltac:(manager_registry)
                stm stm').
  - intros stp stp' Hsound Hturns Hk.
    by apply (turns_keep_entry MessagePipeline._idToSession MessagePipeline._registerHandlers
                ltac:(pipeline_registry) ltac:(pipeline_registry) ltac:(pipeline_registry)
                stp stp').
Qed.

Lemma registry_entries_are_permanent_witness :
  SessionManager._idToSession
    (this (snd (SessionManager._registerHandlers (Connect Demo.alice') Demo.attached)))
    !! "abc" = Some 1%positive.
Proof.
  destruct (@registry_entries_are_permanent Demo.collaborators "abc" 1%positive)
    as [Hmanager _].
  apply (Hmanager
           {| pending := [Connect Demo.alice']; finished := []; world := Demo.attached |}
           {| pending := [];
              finished := [(Connect Demo.alice',
                            fst (SessionManager._registerHandlers (Connect Demo.alice')
                                   Demo.attached))];
              world := snd (SessionManager._registerHandlers (Connect Demo.alice')
                              Demo.attached) |}).
  - apply attached_sound.
  - apply one_turn.
  - reflexivity.
Defined.

(** X10.  In both classes, from a state with a sound registry, no sequence of
    connection events takes a session object away or changes the kernel, the
    notebook or the key it was created with (the connection update being the
    replacement of the connection reference). *)
Theorem sessions_keep_their_bindings `{Collaborators} (l : loc) (s : Session) :
  (forall stm stm' : LoopState,
     registry_sound SessionManager._idToSession (world stm) ->
     turns SessionManager._registerHandlers stm stm' ->
     heap (world stm) !! l = Some s ->
     exists s', heap (world stm') !! l = Some s' /\
                kernel s' = kernel s /\ notebook s' = notebook s /\
                session_id s' = session_id s)
  /\
  (forall stp stp' : LoopState,
     registry_sound MessagePipeline._idToSession (world stp) ->
     turns MessagePipeline._registerHandlers stp stp' ->
     heap (world stp) !! l = Some s ->
     exists s', heap (world stp') !! l = Some s' /\
                kernel s' = kernel s /\ notebook s' = notebook s /\
                session_id s' = session_id s).
Proof.
  split.
  - intros stm stm' Hsound Hturns Hl.
    by apply (turns_keep_bindings SessionManager._idToSession
                SessionManager._registerHandlers
                ltac:(manager_registry) ltac:(manager_registry) ltac:(manager_registry)
                stm stm').
  - intros stp stp' Hsound Hturns Hl.
    by apply (turns_keep_bindings MessagePipeline._idToSession
                MessagePipeline._registerHandlers
                ltac:(pipeline_registry) ltac:(pipeline_registry) ltac:(pipeline_registry)
                stp stp').
Qed.

Lemma sessions_keep_their_bindings_witness :
  exists s',
    heap (snd (SessionManager._registerHandlers (Connect Demo.alice') Demo.attached))
      !! 1%positive = Some s' /\
    kernel s' = kernel Demo.manager_session /\
    notebook s' = notebook Demo.manager_session /\
    session_id s' = session_id Demo.manager_session.
Proof.
  destruct (@sessions_keep_their_bindings Demo.collaborators 1%positive Demo.manager_session)
    as [Hmanager _].
  apply (Hmanager
           {| pending := [Connect Demo.alice']; finished := []; world := Demo.attached |}
           {| pending := [];
              finished := [(Connect Demo.alice',
                            fst (SessionManager._registerHandlers (Connect Demo.alice')
                                   Demo.attached))];
              world := snd (SessionManager._registerHandlers (Connect Demo.alice')
                              Demo.attached) |}).
  - apply attached_sound.
  - apply one_turn.
  - reflexivity.
Defined.

(** ** The cells of a notebook *)

Lemma consistent_insert (d : Notebook) (i : string) (c : Cell) :
  cells d !! i = None ->
  notebook_consistent d ->
  notebook_consistent
    {| notebook_id := notebook_id d; cells := <[i := c]> (cells d);
       worksheet := worksheet d ++ [i] |}.
Proof.
  intros Hnone [Hnodup Hiff].
  assert (i ∉ worksheet d) as Hnotin.
  { intros Hin. apply Hiff in Hin. rewrite Hnone in Hin. by destruct Hin. }
  split; simpl.
  - apply NoDup_app. split; [done|]. split.
    + intros j Hj. rewrite list_elem_of_singleton. by intros ->.
    + apply NoDup_singleton.
  - intros j. rewrite elem_of_app, list_elem_of_singleton.
    destruct (decide (i = j)) as [->|Hne].
    + rewrite lookup_insert_eq. split; [by eauto|]. by right.
    + rewrite lookup_insert_ne by done. rewrite Hiff. split; [|by left].
      intros [Hj| ->]; [done|by destruct Hne].
Qed.

(** X11.  Whatever the document and the generated id, neither append ever
    overwrites or removes a cell, changes the document id, or reorders or
    drops a worksheet entry: the old worksheet is a prefix of the new one;
    and a document whose worksheet lists every cell exactly once stays so.
    The world is untouched but for the id generator. *)
Theorem append_only_grows `{Collaborators} (d : Notebook) (w : World MessagePipeline.t) :
  grows d (MessagePipeline._appendMarkdownCell d w) w /\
  grows d (MessagePipeline._appendCodeCell d w) w.
Proof.
  unfold grows, MessagePipeline._appendMarkdownCell, MessagePipeline._appendCodeCell,
    bind, call_total, ret.
  destruct (uuid_v4 (ext w)) as [i x'] eqn:Hid. simpl.
  destruct (cells d !! i) as [c|] eqn:Hcell; split.
  - exists d, x'. split; [done|]. split; [done|]. split; [done|]. split; [done|]. done.
  - exists d, x'. split; [done|]. split; [done|]. split; [done|]. split; [done|]. done.
  - eexists _, x'. split; [reflexivity|]. simpl. split; [done|]. split; [|split].
    + intros j c Hj. rewrite lookup_insert_ne; [done|]. congruence.
    + by apply prefix_app_r.
    + by apply consistent_insert.
  - eexists _, x'. split; [reflexivity|]. simpl. split; [done|]. split; [|split].
    + intros j c Hj. rewrite lookup_insert_ne; [done|]. congruence.
    + by apply prefix_app_r.
    + by apply consistent_insert.
Qed.

(** X12.  An append whose generated id [i] is not yet in the cell map adds
    exactly one cell: looking [i] up afterwards finds the markdown cell (with
    the placeholder text) or the code cell (with empty source) of id [i], the
    worksheet is the old one followed by [i], and the cell map has one cell
    more. *)
Theorem append_fresh_cell `{Collaborators}
    (d : Notebook) (w : World MessagePipeline.t) (i : string) (x' : Ext) :
  uuid_v4 (ext w) = (i, x') ->
  cells d !! i = None ->
  (exists d',
     ran (MessagePipeline._appendMarkdownCell d w) w (Normal d') x' [] /\
     cells d' !! i = Some (markdown_cell i) /\
     worksheet d' = worksheet d ++ [i] /\
     size (cells d') = S (size (cells d)))
  /\
  (exists d',
     ran (MessagePipeline._appendCodeCell d w) w (Normal d') x' [] /\
     cells d' !! i = Some (code_cell i) /\
     worksheet d' = worksheet d ++ [i] /\
     size (cells d') = S (size (cells d))).
Proof.
  intros Hid Hnone.
  unfold MessagePipeline._appendMarkdownCell, MessagePipeline._appendCodeCell,
    bind, call_total, ret. rewrite Hid. simpl. rewrite Hnone.
  split; eexists; (split; [apply ran_silently|]); simpl.
  - split; [by rewrite lookup_insert_eq|]. split; [done|].
    by apply map_size_insert_None.
  - split; [by rewrite lookup_insert_eq|]. split; [done|].
    by apply map_size_insert_None.
Qed.

Lemma append_fresh_cell_witness :
  exists d',
    ran (MessagePipeline._appendCodeCell
           {| notebook_id := "n"; cells := ∅; worksheet := [] |} (Demo.pipeline0 []))
        (Demo.pipeline0 []) (Normal d') 1 [] /\
    cells d' !! "a" = Some (code_cell "a") /\
    worksheet d' = ["a"].
Proof.
  destruct (append_fresh_cell {| notebook_id := "n"; cells := ∅; worksheet := [] |}
              (Demo.pipeline0 []) "a" 1 eq_refl (lookup_empty _))
    as [_ (d' & Hrun & Hcell & Hws & _)].
  exists d'. repeat split; assumption.
Defined.

(** X13.  Were the generator to hand out the same id [a] for both cells, the
    only-insert-once guard skips the code cell: the notebook built then has
    the worksheet [a] and the markdown cell alone. *)
Theorem createBlankNotebook_colliding_ids `{Collaborators}
    (w : World MessagePipeline.t) (id a : string) (x0 x1 x2 : Ext) :
  uuid_v4 (ext w) = (id, x0) ->
  uuid_v4 x0 = (a, x1) ->
  uuid_v4 x1 = (a, x2) ->
  MessagePipeline._createBlankNotebook w =
    call (ActiveNotebook_wrap
            {| notebook_id := id; cells := {[ a := markdown_cell a ]}; worksheet := [a] |})
      {| this := this w; heap := heap w; ext := x2; trace := trace w |}.
Proof.
  intros Hid Ha Hb.
  unfold MessagePipeline._createBlankNotebook, MessagePipeline._appendMarkdownCell,
    MessagePipeline._appendCodeCell, bind, call_total, ret. simpl.
  rewrite Hid. simpl. rewrite Ha. simpl. rewrite lookup_empty. simpl.
  rewrite Hb. simpl. rewrite lookup_insert_eq. simpl.
  unfold markdown_cell. rewrite insert_empty. reflexivity.
Qed.

Lemma createBlankNotebook_colliding_ids_witness :
  @MessagePipeline._createBlankNotebook Collide.collaborators Collide.pipeline0 =
    @call Collide.collaborators _ _
      (@ActiveNotebook_wrap Collide.collaborators
         {| notebook_id := "a"; cells := {[ "a" := markdown_cell "a" ]};
            worksheet := ["a"] |})
      (@Build_World Collide.collaborators _ (this Collide.pipeline0)
         (heap Collide.pipeline0) 3 (trace Collide.pipeline0)).
Proof.
  apply (@createBlankNotebook_colliding_ids Collide.collaborators Collide.pipeline0
           "a" "a" 1 2 3); reflexivity.
Defined.
